(** * Token lifecycle of the webhook gateway (server.js)

    A shallow embedding of the in-memory token machinery of [server.js]:
    the token store (a JS [Map]), the blacklist (a JS [Set]), the
    [verifyToken] middleware, the [/auth/token], [/auth/refresh] and
    [/auth/revoke] handlers and the periodic [cleanupExpiredTokens] sweep.

    The two module-level containers are threaded explicitly as a [State].
    [Date.now()] and [crypto.randomBytes(32)] are the only sources of
    non-determinism; each reading of the clock and each draw of random
    bytes is an explicit argument of the function that performs it.

    Every handler runs inside [try { ... } catch]. What can throw there is
    the destructuring of an undefined [req.body], the rendering of a
    [userId] into the log line, and [toISOString] on an instant outside
    the range of dates; each is modelled, with the state as it is when
    the exception is raised. Clock readings are time values, integers of
    magnitude at most 8.64e15, on which the additions below are exact. *)

From Stdlib Require Import ZArith String Ascii.
From Stdlib.Strings Require Import Byte.
From Stdlib Require Import Floats.PrimFloat.
From stdpp Require Import gmap strings list fin_maps.

Local Open Scope string_scope.
Local Open Scope Z_scope.

(** ** JavaScript values

    The request body is whatever [express.json()] parsed, so [userId] and
    [hwid] are arbitrary JSON values, or [undefined] when the key is
    absent. Numbers are IEEE binary64. *)

#[warnings="-register-all"]
Inductive JsValue : Type :=
| JsUndefined
| JsNull
| JsBool (b : bool)
| JsNumber (x : float)
| JsString (s : string)
| JsArray (items : list JsValue)
| JsObject (fields : list (string * JsValue)).

(** ToBoolean: [undefined], [null], [false], [+0], [-0], [NaN] and the empty
    string are falsy; everything else, every object and array included, is
    truthy. *)
Definition truthy (v : JsValue) : bool :=
  match v with
  | JsUndefined => false
  | JsNull => false
  | JsBool b => b
  | JsNumber x => PrimFloat.eqb x x && negb (PrimFloat.eqb x 0%float)
  | JsString s => negb (String.eqb s EmptyString)
  | JsArray _ => true
  | JsObject _ => true
  end.

(** [a || b] *)
Definition js_or (a b : JsValue) : JsValue := if truthy a then a else b.

(** Whether ToString throws, as in the template literals of the log
    lines. Values parsed from JSON hold no function, so an object with an
    own [toString] property has no callable [toString], and its [valueOf]
    (own, or the inherited one, which returns the object) yields no
    primitive either: a TypeError. An object without that property
    renders as [[object Object]]. An array joins the renderings of its
    elements, [null] and [undefined] as the empty string. *)
Fixpoint stringify_throws (v : JsValue) : bool :=
  match v with
  | JsArray items => existsb stringify_throws items
  | JsObject fields =>
      existsb (fun field => String.eqb field.1 "toString") fields
  | _ => false
  end.

(** ** Data model *)

(** The object stored under a token:
    [{ userId, hwid, expires, createdAt }]. *)
Record TokenData : Type := mkTokenData {
  userId : JsValue;
  hwid : JsValue;
  expires : Z;
  createdAt : Z
}.

(** [tokenStore] and [blacklistedTokens]. *)
Record State : Type := mkState {
  tokenStore : gmap string TokenData;
  blacklistedTokens : gset string
}.

(** Token expiry: 1 hour, in milliseconds. *)
Definition TOKEN_EXPIRY : Z := 3600000.

(** [new Date(t).toISOString()] throws a RangeError when [t] is more than
    8.64e15 milliseconds away from the epoch. *)
Definition toISOString_throws (t : Z) : bool := 8640000000000000 <? Z.abs t.

(** What a handler sends back. [expiresAt] is kept as the instant that
    the code renders with [toISOString]. *)
Inductive Response : Type :=
| ErrorJson (status : Z) (error : string)
| TokenJson (token : string) (expiresAt : Z) (expiresIn : Z)
| MessageJson (message : string).

(** What the [catch] of the three token handlers sends. *)
Definition InternalServerError : Response :=
  ErrorJson 500 "Internal server error".

(** A middleware either answers the request itself or calls [next()],
    having attached [req.tokenData]. *)
Inductive Middleware : Type :=
| Respond (r : Response)
| Next (tokenData : TokenData).

(** ** Strings *)

(** [s.substring(n)]: [s] without its first [n] characters. *)
Fixpoint substring_from (n : nat) (s : string) : string :=
  match n, s with
  | O, _ => s
  | S n', String _ s' => substring_from n' s'
  | S _, EmptyString => EmptyString
  end.

(** [s.startsWith(p)] *)
Definition startsWith (p s : string) : bool := String.prefix p s.

(** ** verifyToken *)

Definition verifyToken (now : Z) (authorization : option string) (st : State)
  : Middleware * State :=
  match authorization with
  | None => (Respond (ErrorJson 401 "Bearer token required"), st)
  | Some authHeader =>
    if String.eqb authHeader EmptyString || negb (startsWith "Bearer " authHeader) then
      (Respond (ErrorJson 401 "Bearer token required"), st)
    else
      let token := substring_from 7 authHeader in
      if bool_decide (token ∈ blacklistedTokens st) then
        (Respond (ErrorJson 401 "Token has been revoked"), st)
      else
        match tokenStore st !! token with
        | None => (Respond (ErrorJson 401 "Invalid token"), st)
        | Some tokenData =>
          if now >? expires tokenData then
            (Respond (ErrorJson 401 "Token expired"),
             mkState (delete token (tokenStore st)) (blacklistedTokens st))
          else
            (Next tokenData, st)
        end
  end.

(** ** generateToken *)

Definition hex_digit (n : N) : ascii :=
  match String.get (N.to_nat n) "0123456789abcdef" with
  | Some c => c
  | None => "0"%char
  end.

Definition hex_of_byte (b : byte) : string :=
  let n := Byte.to_N b in
  String (hex_digit (n / 16)) (String (hex_digit (n mod 16)) EmptyString).

(** [crypto.randomBytes(32).toString('hex')], given the bytes drawn. *)
Definition generateToken (randomBytes : list byte) : string :=
  foldr (fun b acc => hex_of_byte b +:+ acc) EmptyString randomBytes.


(** ** cleanupExpiredTokens

    The [for ... of tokenStore.entries()] loop. Deleting the entry being
    visited does not disturb a JS [Map] iterator, so every entry that was
    present when the loop started is visited once. The accumulator is the
    store as mutated so far together with the local counter [cleaned]. *)

Definition cleanup_visit (now : Z) (acc : gmap string TokenData * nat)
    (entry : string * TokenData) : gmap string TokenData * nat :=
  let '(token, data) := entry in
  if now >? expires data then (delete token acc.1, S acc.2) else acc.

(** Returns the state after the sweep and the final value of [cleaned]. *)
Definition cleanupExpiredTokens (now : Z) (st : State) : State * nat :=
  let r := foldl (cleanup_visit now) (tokenStore st, O)
                 (map_to_list (tokenStore st)) in
  (mkState r.1 (blacklistedTokens st), r.2).

(** The entries a sweep at clock reading [now] deletes. *)
Definition expired_at (now : Z) (entry : string * TokenData) : Prop :=
  now > expires entry.2.

#[global] Instance expired_at_dec (now : Z) (entry : string * TokenData)
  : Decision (expired_at now entry).
Proof. unfold expired_at. apply _. Defined.

(** The line written to the console: nothing unless [cleaned > 0]. *)
Definition cleanup_log (cleaned : nat) : option nat :=
  if (0 <? cleaned)%nat then Some cleaned else None.

(** ** POST /auth/token

    The handler behind [verifyApiKey] and [authRateLimiter]. [reqBody] is
    [req.body]: [None] when it is undefined (no JSON body was parsed),
    otherwise the two fields the handler destructures from it. The record
    is stored before the log line and the response are produced, so an
    exception raised there leaves it in the store. *)

Record TokenRequest : Type := mkTokenRequest {
  body_userId : JsValue;
  body_hwid : JsValue
}.

Definition auth_token (randomBytes : list byte) (now : Z)
    (reqBody : option TokenRequest) (st : State) : Response * State :=
  match reqBody with
  | None => (InternalServerError, st)
  | Some body =>
    if negb (truthy (body_userId body)) then
      (ErrorJson 400 "userId is required", st)
    else
      let token := generateToken randomBytes in
      let expires := now + TOKEN_EXPIRY in
      let st' :=
        mkState
          (<[token := mkTokenData (body_userId body)
                                  (js_or (body_hwid body) JsNull)
                                  expires now]> (tokenStore st))
          (blacklistedTokens st) in
      if stringify_throws (body_userId body) || toISOString_throws expires
      then (InternalServerError, st')
      else (TokenJson token expires 3600, st')
  end.

(** ** POST /auth/refresh *)

(** The handler proper, entered after [verifyToken] called [next()];
    [authorization] is [req.headers.authorization]. The old token is
    blacklisted and the new record stored before the log line and the
    response are produced. *)
Definition refresh_handler (authorization : string) (tokenData : TokenData)
    (randomBytes : list byte) (now : Z) (st : State) : Response * State :=
  let oldToken := substring_from 7 authorization in
  let blacklist := {[oldToken]} ∪ blacklistedTokens st in
  let store := delete oldToken (tokenStore st) in
  let newToken := generateToken randomBytes in
  let expires := now + TOKEN_EXPIRY in
  let st' :=
    mkState
      (<[newToken := mkTokenData (userId tokenData) (hwid tokenData)
                                 expires now]> store)
      blacklist in
  if stringify_throws (userId tokenData) || toISOString_throws expires
  then (InternalServerError, st')
  else (TokenJson newToken expires 3600, st').

(** The route: [verifyToken], then the handler. [gateNow] is the clock as
    read by the middleware and [now] as read by the handler. *)
Definition auth_refresh (gateNow : Z) (authorization : option string)
    (randomBytes : list byte) (now : Z) (st : State) : Response * State :=
  match verifyToken gateNow authorization st with
  | (Respond r, st') => (r, st')
  | (Next tokenData, st') =>
    refresh_handler (default EmptyString authorization) tokenData
                    randomBytes now st'
  end.

(** ** POST /auth/revoke *)

(** The handler proper; [tokenData] is [req.tokenData], whose [userId]
    goes into the log line after the token has been blacklisted. *)
Definition revoke_handler (authorization : string) (tokenData : TokenData)
    (st : State) : Response * State :=
  let token := substring_from 7 authorization in
  let st' := mkState (delete token (tokenStore st))
                     ({[token]} ∪ blacklistedTokens st) in
  if stringify_throws (userId tokenData)
  then (InternalServerError, st')
  else (MessageJson "Token revoked", st').

Definition auth_revoke (gateNow : Z) (authorization : option string)
    (st : State) : Response * State :=
  match verifyToken gateNow authorization st with
  | (Respond r, st') => (r, st')
  | (Next tokenData, st') =>
    revoke_handler (default EmptyString authorization) tokenData st'
  end.

(** ** The operations of the specification *)

(** The header a client holding [token] sends. *)
Definition bearer (token : string) : string := "Bearer " +:+ token.

(** [check(token)] at clock reading [now]. *)
Definition check (now : Z) (token : string) (st : State)
  : Middleware * State :=
  verifyToken now (Some (bearer token)) st.

(** The four outcomes of [check], as the middleware renders them. *)
Definition Revoked : Middleware :=
  Respond (ErrorJson 401 "Token has been revoked").
Definition Unknown : Middleware := Respond (ErrorJson 401 "Invalid token").
Definition Expired : Middleware := Respond (ErrorJson 401 "Token expired").
Definition Valid (record : TokenData) : Middleware := Next record.

(** The client error of issuance. *)
Definition InvalidInput : Response := ErrorJson 400 "userId is required".

(** ** Histories

    Every request that reaches the token machinery, and the timer. A
    [ReqAuthenticated] request is any other route guarded by [verifyToken]
    (the webhook route), which touches the state through the middleware
    only. *)

Inductive Op : Type :=
| ReqToken (randomBytes : list byte) (now : Z)
           (reqBody : option TokenRequest)
| ReqRefresh (gateNow : Z) (authorization : option string)
             (randomBytes : list byte) (now : Z)
| ReqRevoke (gateNow : Z) (authorization : option string)
| ReqAuthenticated (gateNow : Z) (authorization : option string)
| TimerCleanup (now : Z).

Definition run (op : Op) (st : State) : State :=
  match op with
  | ReqToken randomBytes now body => (auth_token randomBytes now body st).2
  | ReqRefresh gateNow authorization randomBytes now =>
      (auth_refresh gateNow authorization randomBytes now st).2
  | ReqRevoke gateNow authorization => (auth_revoke gateNow authorization st).2
  | ReqAuthenticated gateNow authorization =>
      (verifyToken gateNow authorization st).2
  | TimerCleanup now => (cleanupExpiredTokens now st).1
  end.

(** The state after a history, oldest operation first. *)
Definition run_all (ops : list Op) (st : State) : State :=
  foldl (fun s op => run op s) st ops.

(** ** verifyApiKey

    [envApiKey] is [process.env.API_KEY] and [xApiKey] the request's
    [x-api-key] header; each is absent or a string. The result [None]
    stands for [next()]. *)

Definition verifyApiKey (envApiKey xApiKey : option string)
  : option Response :=
  match xApiKey with
  | None => Some (ErrorJson 401 "API key required")
  | Some apiKey =>
    if String.eqb apiKey EmptyString then
      Some (ErrorJson 401 "API key required")
    else if negb (bool_decide (Some apiKey = envApiKey)) then
      Some (ErrorJson 401 "Invalid API key")
    else None
  end.

(** The [/auth/token] route: [verifyApiKey], [authRateLimiter], then the
    handler. The limiter belongs to a library; [limited] is its verdict
    on this request, [None] when it lets the request through. *)
Definition post_auth_token (envApiKey xApiKey : option string)
    (limited : option Response) (randomBytes : list byte) (now : Z)
    (reqBody : option TokenRequest) (st : State) : Response * State :=
  match verifyApiKey envApiKey xApiKey with
  | Some r => (r, st)
  | None =>
    match limited with
    | Some r => (r, st)
    | None => auth_token randomBytes now reqBody st
    end
  end.

(** ** POST /webhook/discord *)

(** A plain JS object: its own properties in insertion order. *)
Definition JsObj : Type := list (string * JsValue).

(** [obj.key], which is [undefined] when [obj] has no such property. *)
Fixpoint js_get (key : string) (obj : JsObj) : JsValue :=
  match obj with
  | [] => JsUndefined
  | (k, v) :: rest => if String.eqb k key then v else js_get key rest
  end.

(** [if (v) payload.key = v;] for a [key] the payload does not have yet. *)
Definition set_if_truthy (key : string) (v : JsValue) (payload : JsObj)
  : JsObj :=
  if truthy v then (payload ++ [(key, v)])%list else payload.

(** The four fields the handler destructures from [req.body]. *)
Record WebhookRequest : Type := mkWebhookRequest {
  body_content : JsValue;
  body_embeds : JsValue;
  body_username : JsValue;
  body_avatar_url : JsValue
}.

Definition webhook_payload (body : WebhookRequest) : JsObj :=
  set_if_truthy "avatar_url" (body_avatar_url body)
    (set_if_truthy "username" (body_username body)
       (set_if_truthy "embeds" (body_embeds body)
          (set_if_truthy "content" (body_content body) []))).

Inductive WebhookResponse : Type :=
| Plain (r : Response)
| DiscordFailed (status : Z) (error message : string)
| WebhookSent (message : string) (userId : JsValue).

(** What the inner [catch] sends. *)
Definition DiscordRejected : WebhookResponse :=
  DiscordFailed 500 "Failed to send webhook to Discord"
                "The webhook request was rejected by Discord".

(** The handler proper. [reqBody] is [req.body], [None] when it is
    undefined: destructuring it throws, to the outer [catch].
    [envWebhookUrl] is [process.env.DISCORD_WEBHOOK_URL]; [post url
    payload] tells whether the promise of [axios.post(url, payload, ...)]
    resolves ([true]) or rejects ([false]). Once it has resolved, the log
    line renders the [userId] of [req.tokenData]; an exception there is
    caught by the inner [catch], like a rejection. Returned with the
    response is the request sent to Discord, if one was sent. *)
Definition webhook_handler (envWebhookUrl : option string)
    (post : string -> JsObj -> bool) (tokenData : TokenData)
    (reqBody : option WebhookRequest)
  : WebhookResponse * option (string * JsObj) :=
  match reqBody with
  | None => (Plain InternalServerError, None)
  | Some body =>
    match envWebhookUrl with
    | None => (Plain (ErrorJson 500 "Webhook URL not configured"), None)
    | Some webhookUrl =>
      if String.eqb webhookUrl EmptyString then
        (Plain (ErrorJson 500 "Webhook URL not configured"), None)
      else
        let payload := webhook_payload body in
        if negb (truthy (js_get "content" payload))
           && negb (truthy (js_get "embeds" payload)) then
          (Plain (ErrorJson 400 "content or embeds is required"), None)
        else if post webhookUrl payload then
          if stringify_throws (userId tokenData) then
            (DiscordRejected, Some (webhookUrl, payload))
          else
            (WebhookSent "Webhook sent successfully" (userId tokenData),
             Some (webhookUrl, payload))
        else
          (DiscordRejected, Some (webhookUrl, payload))
    end
  end.

(** The route: [verifyToken], [webhookRateLimiter] (its verdict is
    [limited], as above), then the handler. *)
Definition webhook_discord (gateNow : Z) (authorization : option string)
    (limited : option Response) (envWebhookUrl : option string)
    (post : string -> JsObj -> bool) (reqBody : option WebhookRequest)
    (st : State)
  : WebhookResponse * option (string * JsObj) * State :=
  match verifyToken gateNow authorization st with
  | (Respond r, st') => (Plain r, None, st')
  | (Next tokenData, st') =>
    match limited with
    | Some r => (Plain r, None, st')
    | None => (webhook_handler envWebhookUrl post tokenData reqBody, st')
    end
  end.

(** ** The CORS middleware

    Strings are sequences of code units below 256, as the header values
    that Node hands over are. *)

(** The code units below 256 that [trim] strips: tab, line feed, vertical
    tab, form feed, carriage return, space and no-break space. *)
Definition is_whitespace (c : ascii) : bool :=
  bool_decide (nat_of_ascii c ∈ [9; 10; 11; 12; 13; 32; 160]%nat).

Fixpoint trim_start (s : string) : string :=
  match s with
  | EmptyString => EmptyString
  | String c s' => if is_whitespace c then trim_start s' else s
  end.

Fixpoint trim_end (s : string) : string :=
  match s with
  | EmptyString => EmptyString
  | String c s' =>
    match trim_end s' with
    | EmptyString => if is_whitespace c then EmptyString
                     else String c EmptyString
    | rest => String c rest
    end
  end.

(** [s.trim()] *)
Definition trim (s : string) : string := trim_end (trim_start s).

(** [s.split(sep)] for a one-character separator. *)
Fixpoint split_on (sep : ascii) (s : string) : list string :=
  match s with
  | EmptyString => [EmptyString]
  | String c s' =>
    if Ascii.eqb c sep then EmptyString :: split_on sep s'
    else match split_on sep s' with
         | piece :: pieces => String c piece :: pieces
         | [] => [String c EmptyString]
         end
  end.

(** The headers the middleware sets, in order, and whether it calls
    [next()]; an [OPTIONS] request is answered with [sendStatus(200)]
    instead. [envAllowedOrigins] is [process.env.ALLOWED_ORIGINS] and
    [origin] the request's [Origin] header. *)
Definition cors (envAllowedOrigins origin : option string) (method : string)
  : list (string * string) * bool :=
  let allowedOrigins :=
    match envAllowedOrigins with
    | None => "*"
    | Some s => if String.eqb s EmptyString then "*" else s
    end in
  let allowOrigin :=
    if String.eqb allowedOrigins "*" then
      [("Access-Control-Allow-Origin", "*")]
    else
      let origins := map trim (split_on ","%char allowedOrigins) in
      match origin with
      | Some o =>
        if bool_decide (o ∈ origins)
        then [("Access-Control-Allow-Origin", o)] else []
      | None => []
      end in
  ((allowOrigin ++
      [("Access-Control-Allow-Methods", "GET, POST, PUT, DELETE");
       ("Access-Control-Allow-Headers",
        "Content-Type, Authorization, X-API-Key")])%list,
   negb (String.eqb method "OPTIONS")).

(** The value of a response header, if it was set. *)
Definition header (name : string) (headers : list (string * string))
  : option string :=
  snd <$> List.find (fun h => String.eqb h.1 name) headers.

(** ** Predicates on tokens, records and histories *)

Definition is_hex_digit (c : ascii) : bool :=
  bool_decide (c ∈ list_ascii_of_string "0123456789abcdef").

(** A string of 64 lowercase hex digits. *)
Definition is_token (k : string) : bool :=
  bool_decide (String.length k = 64%nat)
  && forallb is_hex_digit (list_ascii_of_string k).

(** The position of a hex digit in [0123456789abcdef]. *)
Definition hex_value (c : ascii) : N :=
  match String.index 0 (String c EmptyString) "0123456789abcdef" with
  | Some i => N.of_nat i
  | None => 0%N
  end.

(** Reading a hex string back into bytes; used to show that
    [generateToken] is injective. *)
Fixpoint decode_hex (s : string) : option (list byte) :=
  match s with
  | EmptyString => Some []
  | String c1 (String c2 rest) =>
    match Byte.of_N (16 * hex_value c1 + hex_value c2), decode_hex rest with
    | Some b, Some l => Some (b :: l)
    | _, _ => None
    end
  | String _ EmptyString => None
  end.

(** What every record written by the handlers looks like. *)
Definition record_wf (d : TokenData) : Prop :=
  truthy (userId d) = true ∧
  (truthy (hwid d) = true ∨ hwid d = JsNull) ∧
  expires d = createdAt d + TOKEN_EXPIRY.

Definition store_wf (st : State) : Prop :=
  ∀ t d, tokenStore st !! t = Some d → record_wf d.

(** [crypto.randomBytes(32)] returned 32 bytes. *)
Definition draws_32 (op : Op) : Prop :=
  match op with
  | ReqToken randomBytes _ _ => length randomBytes = 32%nat
  | ReqRefresh _ _ randomBytes _ => length randomBytes = 32%nat
  | _ => True
  end.

(** No blacklisted token has a record. *)
Definition revoked_not_stored (st : State) : Prop :=
  ∀ k, k ∈ blacklistedTokens st → tokenStore st !! k = None.

(** Each token the generator returns along a history is new at that
    moment: not a revoked token, and not the token being refreshed. *)
Fixpoint fresh_draws (ops : list Op) (st : State) : Prop :=
  match ops with
  | [] => True
  | op :: rest =>
    match op with
    | ReqToken randomBytes _ _ =>
        generateToken randomBytes ∉ blacklistedTokens st
    | ReqRefresh _ authorization randomBytes _ =>
        (generateToken randomBytes ∉ blacklistedTokens st) ∧
        authorization ≠ Some (bearer (generateToken randomBytes))
    | _ => True
    end ∧ fresh_draws rest (run op st)
  end.

(** The token an operation generates, if it draws random bytes. *)
Definition generated (op : Op) : option string :=
  match op with
  | ReqToken randomBytes _ _ => Some (generateToken randomBytes)
  | ReqRefresh _ _ randomBytes _ => Some (generateToken randomBytes)
  | _ => None
  end.

(** ** Sample data

    A store holding a live session, an expired one, and an expired one
    whose token was also revoked; clock readings around them. *)

Definition session (expiry : Z) : TokenData :=
  mkTokenData (JsString "user123") JsNull expiry 0.

Definition sample_state : State :=
  mkState (<["live" := session 100]>
            (<["old" := session 1]> (<["gone" := session 1]> ∅)))
          {["gone"]}.

Definition empty_state : State := mkState ∅ ∅.

Definition zero_bytes : list byte := repeat x00 32.

(** A JSON object with an own [toString] property: truthy, and not
    renderable into a template literal. *)
Definition unprintable : JsValue := JsObject [("toString", JsNull)].

(** * Properties *)

(** ** The bearer header *)

Lemma substring_from_bearer (t : string) : substring_from 7 (bearer t) = t.
Proof. reflexivity. Qed.

Lemma startsWith_bearer (t : string) : startsWith "Bearer " (bearer t) = true.
Proof. unfold startsWith, bearer. simpl. by destruct t. Qed.

Lemma bearer_not_empty (t : string) : String.eqb (bearer t) EmptyString = false.
Proof. reflexivity. Qed.

(** [check] with the header test evaluated away. *)
Lemma check_unfold (now : Z) (t : string) (st : State) :
  check now t st =
    if bool_decide (t ∈ blacklistedTokens st) then (Revoked, st)
    else match tokenStore st !! t with
         | None => (Unknown, st)
         | Some r =>
           if now >? expires r
           then (Expired,
                 mkState (delete t (tokenStore st)) (blacklistedTokens st))
           else (Valid r, st)
         end.
Proof.
  unfold check, verifyToken.
  rewrite bearer_not_empty, startsWith_bearer, substring_from_bearer.
  reflexivity.
Qed.

Lemma check_blacklisted (now : Z) (t : string) (st : State) :
  t ∈ blacklistedTokens st → check now t st = (Revoked, st).
Proof.
  intros Hin. rewrite check_unfold. by rewrite bool_decide_eq_true_2.
Qed.

Lemma check_absent (now : Z) (t : string) (st : State) :
  t ∉ blacklistedTokens st → tokenStore st !! t = None →
  check now t st = (Unknown, st).
Proof.
  intros Hnin Hnone. rewrite check_unfold.
  rewrite bool_decide_eq_false_2 by done. by rewrite Hnone.
Qed.

Lemma check_expired (now : Z) (t : string) (st : State) (r : TokenData) :
  t ∉ blacklistedTokens st → tokenStore st !! t = Some r →
  now > expires r →
  check now t st =
    (Expired, mkState (delete t (tokenStore st)) (blacklistedTokens st)).
Proof.
  intros Hnin Hsome Hgt. rewrite check_unfold.
  rewrite bool_decide_eq_false_2 by done. rewrite Hsome.
  destruct (Z.gtb_spec now (expires r)); [done | lia].
Qed.

Lemma check_live (now : Z) (t : string) (st : State) (r : TokenData) :
  t ∉ blacklistedTokens st → tokenStore st !! t = Some r →
  ¬ now > expires r →
  check now t st = (Valid r, st).
Proof.
  intros Hnin Hsome Hle. rewrite check_unfold.
  rewrite bool_decide_eq_false_2 by done. rewrite Hsome.
  destruct (Z.gtb_spec now (expires r)); [lia | done].
Qed.

(** The state [check] leaves behind never depends on more than the
    presented token's own record. *)
Lemma check_blacklist (now : Z) (t : string) (st : State) :
  blacklistedTokens (check now t st).2 = blacklistedTokens st.
Proof.
  rewrite check_unfold. case_bool_decide; [done |].
  destruct (tokenStore st !! t) as [r |]; [| done].
  by destruct (now >? expires r).
Qed.

Lemma verifyToken_blacklist (now : Z) (h : option string) (st : State) :
  blacklistedTokens (verifyToken now h st).2 = blacklistedTokens st.
Proof.
  unfold verifyToken. destruct h as [a |]; [| done].
  destruct (_ || _); [done |]. case_bool_decide; [done |].
  destruct (tokenStore st !! _) as [r |]; [| done].
  by destruct (now >? expires r).
Qed.

(** ** The decision order of the gate *)

(** C1: for every presented token and every state, [check] decides in this
    order: a blacklisted token is [Revoked]; otherwise a token without a
    record is [Unknown]; otherwise, when the clock is strictly past the
    record's [expires], the record is deleted from the store and the
    outcome is [Expired]; otherwise the outcome is [Valid] with that
    record. In particular a token that is both blacklisted and past its
    expiry is [Revoked], and its record stays in the store. *)
Theorem check_decision_order (now : Z) (t : string) (st : State) :
  (t ∈ blacklistedTokens st → check now t st = (Revoked, st)) ∧
  (t ∉ blacklistedTokens st → tokenStore st !! t = None →
     check now t st = (Unknown, st)) ∧
  (∀ r, t ∉ blacklistedTokens st → tokenStore st !! t = Some r →
     now > expires r →
     check now t st =
       (Expired, mkState (delete t (tokenStore st)) (blacklistedTokens st))) ∧
  (∀ r, t ∉ blacklistedTokens st → tokenStore st !! t = Some r →
     ¬ now > expires r →
     check now t st = (Valid r, st)) ∧
  (∀ r, t ∈ blacklistedTokens st → tokenStore st !! t = Some r →
     now > expires r →
     check now t st = (Revoked, st)).
Proof.
  repeat split.
  - apply check_blacklisted.
  - apply check_absent.
  - intros r. apply check_expired.
  - intros r. apply check_live.
  - intros r Hin _ _. by apply check_blacklisted.
Qed.

Lemma check_decision_order_witness :
  check 50 "gone" sample_state = (Revoked, sample_state) ∧
  check 50 "nobody" sample_state = (Unknown, sample_state) ∧
  check 50 "old" sample_state =
    (Expired, mkState (delete "old" (tokenStore sample_state))
                      (blacklistedTokens sample_state)) ∧
  check 50 "live" sample_state = (Valid (session 100), sample_state).
Proof.
  split; [| split; [| split]].
  - apply (proj1 (check_decision_order 50 "gone" sample_state)).
    apply (bool_decide_unpack _). vm_compute. exact I.
  - apply (proj1 (proj2 (check_decision_order 50 "nobody" sample_state))).
    + apply (bool_decide_unpack _). vm_compute. exact I.
    + vm_compute. reflexivity.
  - apply (proj1 (proj2 (proj2 (check_decision_order 50 "old" sample_state)))
             (session 1)).
    + apply (bool_decide_unpack _). vm_compute. exact I.
    + vm_compute. reflexivity.
    + reflexivity.
  - apply (proj1 (proj2 (proj2 (proj2
             (check_decision_order 50 "live" sample_state)))) (session 100)).
    + apply (bool_decide_unpack _). vm_compute. exact I.
    + vm_compute. reflexivity.
    + discriminate.
Defined.

(** ** What the gate writes *)

(** [check] on a token whose record has expired removes that record. *)
Lemma check_expired_deletes_record :
  tokenStore sample_state !! "old" = Some (session 1) ∧
  (check 50 "old" sample_state).1 = Expired ∧
  tokenStore (check 50 "old" sample_state).2 !! "old" = None ∧
  (check 50 "old" sample_state).2 ≠ sample_state.
Proof.
  assert (Hgone : tokenStore (check 50 "old" sample_state).2 !! "old" = None)
    by (vm_compute; reflexivity).
  assert (Hthere : tokenStore sample_state !! "old" = Some (session 1))
    by (vm_compute; reflexivity).
  split; [done |]. split; [vm_compute; reflexivity |]. split; [done |].
  intros Heq. rewrite Heq in Hgone. congruence.
Qed.

(** C8, amended: [check] never writes the blacklist and never touches the
    record of any token other than the presented one. For the outcomes
    [Valid], [Unknown] and [Revoked] it leaves the whole state as it was;
    for [Expired] it deletes the presented token's record from the store,
    and nothing else. *)
Theorem check_writes_only_expired_record (now : Z) (t : string) (st : State) :
  blacklistedTokens (check now t st).2 = blacklistedTokens st ∧
  (∀ u, u ≠ t →
     tokenStore (check now t st).2 !! u = tokenStore st !! u) ∧
  ((check now t st).1 ≠ Expired → (check now t st).2 = st) ∧
  ((check now t st).1 = Expired →
     tokenStore (check now t st).2 = delete t (tokenStore st) ∧
     ∃ r, tokenStore st !! t = Some r ∧ now > expires r).
Proof.
  split; [apply check_blacklist |].
  rewrite check_unfold. unfold Revoked, Unknown, Expired, Valid.
  case_bool_decide as Hbl; [by destruct st |].
  destruct (tokenStore st !! t) as [r |] eqn:Hr; [| by destruct st].
  destruct (Z.gtb_spec now (expires r)) as [Hgt | Hle]; simpl.
  - repeat split; [| done | ].
    + intros u Hu. by rewrite lookup_delete_ne.
    + exists r. split; [done | lia].
  - by repeat split.
Qed.

Lemma check_writes_only_expired_record_witness :
  tokenStore (check 50 "old" sample_state).2
    = delete "old" (tokenStore sample_state) ∧
  (check 50 "live" sample_state).2 = sample_state ∧
  tokenStore (check 50 "old" sample_state).2 !! "live"
    = tokenStore sample_state !! "live".
Proof.
  split; [| split].
  - apply (proj2 (proj2 (proj2
             (check_writes_only_expired_record 50 "old" sample_state)))).
    vm_compute. reflexivity.
  - apply (proj1 (proj2 (proj2
             (check_writes_only_expired_record 50 "live" sample_state)))).
    vm_compute. discriminate.
  - apply (proj1 (proj2
             (check_writes_only_expired_record 50 "old" sample_state))).
    vm_compute. discriminate.
Defined.

(** ** Checking again *)

(** The first [check] of an expired token says [Expired]; the second one,
    at the same clock reading and with nothing in between, says
    [Unknown]. *)
Lemma expired_then_unknown :
  (check 50 "old" sample_state).1 = Expired ∧
  (check 50 "old" (check 50 "old" sample_state).2).1 = Unknown ∧
  (check 50 "old" (check 50 "old" sample_state).2).1
    ≠ (check 50 "old" sample_state).1.
Proof. vm_compute. repeat split; discriminate. Qed.

(** C5, amended: when [check] denies a token and is called again with no
    other operation in between, the answer is again a denial. [Unknown]
    and [Revoked] are repeated as they are, at whatever time the second
    call is made. [Expired] is reported once: that call deleted the
    record, so the second call answers [Unknown]. *)
Theorem check_denial_recheck (now now' : Z) (t : string) (st : State) :
  ((check now t st).1 = Unknown →
     check now' t (check now t st).2 = (Unknown, (check now t st).2)) ∧
  ((check now t st).1 = Revoked →
     check now' t (check now t st).2 = (Revoked, (check now t st).2)) ∧
  ((check now t st).1 = Expired →
     check now' t (check now t st).2 = (Unknown, (check now t st).2)).
Proof.
  rewrite (check_unfold now). unfold Revoked, Unknown, Expired, Valid.
  case_bool_decide as Hbl; simpl.
  - repeat split; try discriminate. intros _. by apply check_blacklisted.
  - destruct (tokenStore st !! t) as [r |] eqn:Hr; simpl.
    + destruct (now >? expires r); simpl.
      * repeat split; try discriminate. intros _.
        apply check_absent; simpl; [done | apply lookup_delete_eq].
      * repeat split; discriminate.
    + repeat split; try discriminate. intros _. by apply check_absent.
Qed.

Lemma check_denial_recheck_witness :
  check 70 "nobody" (check 50 "nobody" sample_state).2
    = (Unknown, (check 50 "nobody" sample_state).2) ∧
  check 70 "gone" (check 50 "gone" sample_state).2
    = (Revoked, (check 50 "gone" sample_state).2) ∧
  check 70 "old" (check 50 "old" sample_state).2
    = (Unknown, (check 50 "old" sample_state).2).
Proof.
  split; [| split].
  - apply (proj1 (check_denial_recheck 50 70 "nobody" sample_state)).
    vm_compute. reflexivity.
  - apply (proj1 (proj2 (check_denial_recheck 50 70 "gone" sample_state))).
    vm_compute. reflexivity.
  - apply (proj2 (proj2 (check_denial_recheck 50 70 "old" sample_state))).
    vm_compute. reflexivity.
Defined.

(** ** The middleware in front of a handler *)

(** When [verifyToken] calls [next()], it wrote nothing, and the attached
    [tokenData] is the stored record of the presented token, which is not
    blacklisted and not past its expiry. *)
Lemma verifyToken_next (now : Z) (h : option string) (st st' : State)
    (d : TokenData) :
  verifyToken now h st = (Next d, st') →
  st' = st ∧
  ∃ a, h = Some a ∧
       (substring_from 7 a ∉ blacklistedTokens st) ∧
       tokenStore st !! substring_from 7 a = Some d ∧
       now ≤ expires d.
Proof.
  unfold verifyToken. destruct h as [a |]; [| discriminate].
  destruct (_ || _); [discriminate |].
  case_bool_decide as Hbl; [discriminate |].
  destruct (tokenStore st !! _) as [r |] eqn:Hr; [| discriminate].
  destruct (Z.gtb_spec now (expires r)); [discriminate |].
  intros [= <- <-]. split; [done |]. exists a.
  repeat split; [done | done | lia].
Qed.

(** When [verifyToken] answers the request itself, the only thing it may
    have written is the deletion of the presented token's record. *)
Lemma verifyToken_respond (now : Z) (h : option string) (st st' : State)
    (r : Response) :
  verifyToken now h st = (Respond r, st') →
  st' = st ∨
  ∃ a, h = Some a ∧
       st' = mkState (delete (substring_from 7 a) (tokenStore st))
                     (blacklistedTokens st).
Proof.
  unfold verifyToken. destruct h as [a |]; [| intros [= <- <-]; by left].
  destruct (_ || _); [intros [= <- <-]; by left |].
  case_bool_decide as Hbl; [intros [= <- <-]; by left |].
  destruct (tokenStore st !! _) as [d |] eqn:Hd; [| intros [= <- <-]; by left].
  destruct (now >? expires d); [| discriminate].
  intros [= <- <-]. right. by exists a.
Qed.

(** The two guarded routes, for a client presenting [t]. *)
Lemma auth_revoke_check (g : Z) (t : string) (st : State) :
  auth_revoke g (Some (bearer t)) st =
    match check g t st with
    | (Respond r, st') => (r, st')
    | (Next d, st') => revoke_handler (bearer t) d st'
    end.
Proof. reflexivity. Qed.

Lemma auth_refresh_check (g : Z) (t : string) (rnd : list byte) (now : Z)
    (st : State) :
  auth_refresh g (Some (bearer t)) rnd now st =
    match check g t st with
    | (Respond r, st') => (r, st')
    | (Next d, st') => refresh_handler (bearer t) d rnd now st'
    end.
Proof. reflexivity. Qed.

(** ** Effects of the handlers on other tokens *)

Lemma revoke_handler_state (a : string) (d : TokenData) (st : State) :
  (revoke_handler a d st).2 =
    mkState (delete (substring_from 7 a) (tokenStore st))
            ({[substring_from 7 a]} ∪ blacklistedTokens st).
Proof. unfold revoke_handler. by destruct (stringify_throws _). Qed.

Lemma refresh_handler_state (a : string) (d : TokenData)
    (rnd : list byte) (now : Z) (st : State) :
  (refresh_handler a d rnd now st).2 =
    mkState (<[generateToken rnd :=
                 mkTokenData (userId d) (hwid d) (now + TOKEN_EXPIRY) now]>
               (delete (substring_from 7 a) (tokenStore st)))
            ({[substring_from 7 a]} ∪ blacklistedTokens st).
Proof. unfold refresh_handler. by destruct (_ || _). Qed.

Lemma auth_revoke_blacklist (g : Z) (h : option string) (st : State) :
  blacklistedTokens st ⊆ blacklistedTokens (auth_revoke g h st).2.
Proof.
  unfold auth_revoke.
  destruct (verifyToken g h st) as [[r | d] st'] eqn:Hv.
  - simpl. pose proof (verifyToken_blacklist g h st) as Hb.
    rewrite Hv in Hb. simpl in Hb. by rewrite Hb.
  - apply verifyToken_next in Hv as [-> _].
    rewrite revoke_handler_state. simpl. set_solver.
Qed.

Lemma auth_refresh_blacklist (g : Z) (h : option string) (rnd : list byte)
    (now : Z) (st : State) :
  blacklistedTokens st ⊆ blacklistedTokens (auth_refresh g h rnd now st).2.
Proof.
  unfold auth_refresh.
  destruct (verifyToken g h st) as [[r | d] st'] eqn:Hv.
  - simpl. pose proof (verifyToken_blacklist g h st) as Hb.
    rewrite Hv in Hb. simpl in Hb. by rewrite Hb.
  - apply verifyToken_next in Hv as [-> _].
    rewrite refresh_handler_state. simpl. set_solver.
Qed.

Lemma auth_token_blacklist (rnd : list byte) (now : Z)
    (reqBody : option TokenRequest) (st : State) :
  blacklistedTokens (auth_token rnd now reqBody st).2 = blacklistedTokens st.
Proof.
  unfold auth_token. destruct reqBody as [body |]; [| done].
  destruct (truthy _); [| done]. by destruct (_ || _).
Qed.

Lemma cleanup_blacklist (now : Z) (st : State) :
  blacklistedTokens (cleanupExpiredTokens now st).1 = blacklistedTokens st.
Proof. reflexivity. Qed.

(** No operation ever removes a token from the blacklist. *)
Lemma run_blacklist_mono (op : Op) (st : State) :
  blacklistedTokens st ⊆ blacklistedTokens (run op st).
Proof.
  destruct op; simpl.
  - by rewrite auth_token_blacklist.
  - apply auth_refresh_blacklist.
  - apply auth_revoke_blacklist.
  - by rewrite verifyToken_blacklist.
  - done.
Qed.

Lemma run_all_blacklist_mono (ops : list Op) (st : State) :
  blacklistedTokens st ⊆ blacklistedTokens (run_all ops st).
Proof.
  revert st. induction ops as [| op ops IH]; intros st; simpl; [done |].
  etrans; [apply (run_blacklist_mono op) | apply IH].
Qed.

(** A successful revocation leaves the token on the blacklist. *)
Lemma auth_revoke_success (g : Z) (t : string) (st st1 : State) (m : string) :
  auth_revoke g (Some (bearer t)) st = (MessageJson m, st1) →
  t ∈ blacklistedTokens st1.
Proof.
  rewrite auth_revoke_check, check_unfold.
  unfold Revoked, Unknown, Expired, Valid.
  case_bool_decide; [discriminate |].
  destruct (tokenStore st !! t) as [r |]; [| discriminate].
  destruct (g >? expires r); [discriminate |].
  rewrite (surjective_pairing (revoke_handler _ _ _)).
  rewrite revoke_handler_state, substring_from_bearer.
  intros [= _ <-]. simpl. set_solver.
Qed.

(** ** Revocation is permanent *)

(** C3: once [revoke(t)] has succeeded, [check(t)] answers [Revoked] in
    every state reached from there by any history of token requests,
    refreshes, revocations, authenticated requests and cleanup runs, at
    any clock reading: the blacklist only grows. *)
Theorem revoked_forever (g : Z) (t : string) (st st1 : State) :
  auth_revoke g (Some (bearer t)) st = (MessageJson "Token revoked", st1) →
  ∀ (ops : list Op) (now : Z),
    t ∈ blacklistedTokens (run_all ops st1) ∧
    check now t (run_all ops st1) = (Revoked, run_all ops st1).
Proof.
  intros Hrev ops now.
  assert (Hin : t ∈ blacklistedTokens (run_all ops st1)).
  { apply (run_all_blacklist_mono ops st1).
    by eapply auth_revoke_success. }
  split; [done | by apply check_blacklisted].
Qed.

Lemma revoked_forever_witness :
  let st1 := (auth_revoke 50 (Some (bearer "live")) sample_state).2 in
  let ops := [TimerCleanup 60;
              ReqRevoke 61 (Some (bearer "live"));
              ReqToken zero_bytes 70
                (Some (mkTokenRequest (JsString "user123") JsUndefined));
              ReqRefresh 71 (Some (bearer (generateToken zero_bytes)))
                         [x01; x02] 72] in
  "live" ∈ blacklistedTokens (run_all ops st1) ∧
  check 80 "live" (run_all ops st1) = (Revoked, run_all ops st1).
Proof.
  intros st1 ops.
  apply (revoked_forever 50 "live" sample_state st1).
  vm_compute. reflexivity.
Defined.

(** ** Revoking twice *)

Lemma revoke_handler_twice (a : string) (d : TokenData) (st : State) :
  revoke_handler a d (revoke_handler a d st).2 = revoke_handler a d st.
Proof.
  unfold revoke_handler. destruct (stringify_throws (userId d)); simpl.
  - f_equal. f_equal.
    + apply delete_delete_eq.
    + by rewrite (assoc_L (∪)), (idemp_L (∪)).
  - f_equal. f_equal.
    + apply delete_delete_eq.
    + by rewrite (assoc_L (∪)), (idemp_L (∪)).
Qed.

(** C9: revocation is idempotent on the data. Running the body of the
    revoke handler (add the token to the blacklist, delete it from the
    store) twice in a row gives the same response and the same store and
    blacklist as running it once. The same holds for the whole route,
    where the second request is stopped by [verifyToken]. *)
Theorem revoke_idempotent (t : string) (st : State) :
  (∀ d : TokenData,
     revoke_handler (bearer t) d (revoke_handler (bearer t) d st).2
       = revoke_handler (bearer t) d st) ∧
  (∀ d : TokenData,
     (revoke_handler (bearer t) d st).2
       = mkState (delete t (tokenStore st)) ({[t]} ∪ blacklistedTokens st)) ∧
  ∀ g g' : Z,
    (auth_revoke g' (Some (bearer t))
       (auth_revoke g (Some (bearer t)) st).2).2
    = (auth_revoke g (Some (bearer t)) st).2.
Proof.
  split; [intros d; apply revoke_handler_twice |].
  split; [intros d; apply revoke_handler_state |].
  intros g g'. rewrite !auth_revoke_check, (check_unfold g).
  unfold Revoked, Unknown, Expired, Valid.
  case_bool_decide as Hbl.
  - by rewrite check_blacklisted.
  - destruct (tokenStore st !! t) as [r |] eqn:Hr.
    + destruct (g >? expires r).
      * rewrite check_absent; [done | done | apply lookup_delete_eq].
      * rewrite check_blacklisted; [done |].
        rewrite revoke_handler_state. simpl. set_solver.
    + by rewrite check_absent.
Qed.

(** ** Revoke and refresh touch one token each *)

Lemma revoke_handler_local (t u : string) (d : TokenData) (st : State) :
  u ≠ t →
  tokenStore (revoke_handler (bearer t) d st).2 !! u = tokenStore st !! u ∧
  (u ∈ blacklistedTokens (revoke_handler (bearer t) d st).2
     ↔ u ∈ blacklistedTokens st).
Proof.
  intros Hu. rewrite revoke_handler_state, substring_from_bearer. simpl.
  split; [by apply lookup_delete_ne |].
  rewrite elem_of_union, elem_of_singleton. tauto.
Qed.

Lemma refresh_handler_local (t u : string) (d : TokenData) (rnd : list byte)
    (now : Z) (st : State) :
  u ≠ t → u ≠ generateToken rnd →
  tokenStore (refresh_handler (bearer t) d rnd now st).2 !! u
    = tokenStore st !! u ∧
  (u ∈ blacklistedTokens (refresh_handler (bearer t) d rnd now st).2
     ↔ u ∈ blacklistedTokens st).
Proof.
  intros Hu Hnew. rewrite refresh_handler_state, substring_from_bearer. simpl.
  split; [| rewrite elem_of_union, elem_of_singleton; tauto].
  rewrite lookup_insert_ne by done. by apply lookup_delete_ne.
Qed.

(** What [check] leaves of another token's record and membership. *)
Lemma check_local (now : Z) (t u : string) (st : State) :
  u ≠ t →
  tokenStore (check now t st).2 !! u = tokenStore st !! u ∧
  (u ∈ blacklistedTokens (check now t st).2 ↔ u ∈ blacklistedTokens st).
Proof.
  intros Hu. rewrite check_blacklist. split; [| done].
  rewrite check_unfold. case_bool_decide; [done |].
  destruct (tokenStore st !! t) as [r |]; [| done].
  destruct (now >? expires r); [| done]. simpl. by apply lookup_delete_ne.
Qed.

(** C10: [revoke(t)] and [refresh(t)] are local to the tokens they name.
    For every token [u] other than [t] (and, for refresh, other than the
    newly generated token), the record stored under [u] and the blacklist
    membership of [u] are the same after the operation as before, and the
    blacklist after the operation contains the blacklist before it. This
    holds for the handler bodies and for the whole routes, with
    [verifyToken] in front. *)
Theorem revoke_refresh_local (t : string) (st : State) :
  (∀ (d : TokenData) (u : string), u ≠ t →
     tokenStore (revoke_handler (bearer t) d st).2 !! u
       = tokenStore st !! u ∧
     (u ∈ blacklistedTokens (revoke_handler (bearer t) d st).2
        ↔ u ∈ blacklistedTokens st)) ∧
  (∀ (d : TokenData) (rnd : list byte) (now : Z) (u : string),
     u ≠ t → u ≠ generateToken rnd →
     tokenStore (refresh_handler (bearer t) d rnd now st).2 !! u
       = tokenStore st !! u ∧
     (u ∈ blacklistedTokens (refresh_handler (bearer t) d rnd now st).2
        ↔ u ∈ blacklistedTokens st)) ∧
  (∀ (g : Z) (u : string), u ≠ t →
     tokenStore (auth_revoke g (Some (bearer t)) st).2 !! u
       = tokenStore st !! u ∧
     (u ∈ blacklistedTokens (auth_revoke g (Some (bearer t)) st).2
        ↔ u ∈ blacklistedTokens st)) ∧
  (∀ (g : Z) (rnd : list byte) (now : Z) (u : string),
     u ≠ t → u ≠ generateToken rnd →
     tokenStore (auth_refresh g (Some (bearer t)) rnd now st).2 !! u
       = tokenStore st !! u ∧
     (u ∈ blacklistedTokens (auth_refresh g (Some (bearer t)) rnd now st).2
        ↔ u ∈ blacklistedTokens st)) ∧
  (∀ (d : TokenData) (rnd : list byte) (now : Z),
     blacklistedTokens st
       ⊆ blacklistedTokens (revoke_handler (bearer t) d st).2 ∧
     blacklistedTokens st
       ⊆ blacklistedTokens (refresh_handler (bearer t) d rnd now st).2) ∧
  (∀ (g : Z) (rnd : list byte) (now : Z),
     blacklistedTokens st
       ⊆ blacklistedTokens (auth_revoke g (Some (bearer t)) st).2 ∧
     blacklistedTokens st
       ⊆ blacklistedTokens (auth_refresh g (Some (bearer t)) rnd now st).2).
Proof.
  split; [intros d u; apply revoke_handler_local |].
  split; [intros d rnd now u; apply refresh_handler_local |].
  split; [| split; [| split]].
  - intros g u Hu. rewrite auth_revoke_check.
    pose proof (check_local g t u st Hu) as Hc.
    destruct (check g t st) as [[r | d] st']; simpl in Hc; [done |].
    cbv beta iota.
    destruct (revoke_handler_local t u d st' Hu) as [Hs Hb].
    split; [by rewrite Hs, (proj1 Hc) | by rewrite Hb, (proj2 Hc)].
  - intros g rnd now u Hu Hnew. rewrite auth_refresh_check.
    pose proof (check_local g t u st Hu) as Hc.
    destruct (check g t st) as [[r | d] st']; simpl in Hc; [done |].
    cbv beta iota.
    destruct (refresh_handler_local t u d rnd now st' Hu Hnew) as [Hs Hb].
    split; [by rewrite Hs, (proj1 Hc) | by rewrite Hb, (proj2 Hc)].
  - intros d rnd now.
    rewrite revoke_handler_state, refresh_handler_state. simpl.
    split; set_solver.
  - intros g rnd now.
    split; [apply auth_revoke_blacklist | apply auth_refresh_blacklist].
Qed.

Lemma revoke_refresh_local_witness :
  tokenStore (auth_revoke 50 (Some (bearer "live")) sample_state).2 !! "old"
    = tokenStore sample_state !! "old" ∧
  ("gone" ∈ blacklistedTokens
     (auth_refresh 50 (Some (bearer "live")) zero_bytes 51 sample_state).2
     ↔ "gone" ∈ blacklistedTokens sample_state).
Proof.
  split.
  - apply (proj1 (proj2 (proj2 (revoke_refresh_local "live" sample_state)))
             50 "old").
    vm_compute. discriminate.
  - apply (proj1 (proj2 (proj2 (proj2
             (revoke_refresh_local "live" sample_state))))
             50 zero_bytes 51 "gone").
    + vm_compute. discriminate.
    + vm_compute. discriminate.
Defined.

(** ** The cleanup sweep *)

Section cleanup.
Variable now : Z.

(** The loop only ever deletes. *)
Lemma cleanup_fold_absent (l : list (string * TokenData))
    (m : gmap string TokenData) (c : nat) (k : string) :
  m !! k = None → (foldl (cleanup_visit now) (m, c) l).1 !! k = None.
Proof.
  revert m c. induction l as [| [k' d'] l IH]; intros m c Hk; [done |].
  simpl. destruct (now >? expires d'); simpl; [| by apply IH].
  apply IH. destruct (decide (k' = k)) as [-> |].
  - apply lookup_delete_eq.
  - by rewrite lookup_delete_ne.
Qed.

(** A visited entry that is past its expiry is gone at the end. *)
Lemma cleanup_fold_expired (l : list (string * TokenData))
    (m : gmap string TokenData) (c : nat) (k : string) (d : TokenData) :
  (k, d) ∈ l → now > expires d →
  (foldl (cleanup_visit now) (m, c) l).1 !! k = None.
Proof.
  revert m c. induction l as [| [k' d'] l IH]; intros m c Hin Hgt.
  - by apply elem_of_nil in Hin.
  - apply elem_of_cons in Hin as [[= <- <-] | Hin].
    + simpl. destruct (Z.gtb_spec now (expires d)); [| lia].
      apply cleanup_fold_absent. apply lookup_delete_eq.
    + simpl. destruct (now >? expires d'); by apply IH.
Qed.

(** A key none of whose visited entries is expired keeps its record. *)
Lemma cleanup_fold_kept (l : list (string * TokenData))
    (m : gmap string TokenData) (c : nat) (k : string) :
  (∀ d, (k, d) ∈ l → ¬ now > expires d) →
  (foldl (cleanup_visit now) (m, c) l).1 !! k = m !! k.
Proof.
  revert m c. induction l as [| [k' d'] l IH]; intros m c Hall; [done |].
  simpl. destruct (Z.gtb_spec now (expires d')) as [Hgt | Hle]; simpl.
  - rewrite IH.
    + apply lookup_delete_ne. intros ->.
      apply (Hall d'); [left | lia].
    + intros d Hd. apply Hall. by right.
  - apply IH. intros d Hd. apply Hall. by right.
Qed.

(** The counter is bumped once per expired entry visited. *)
Lemma cleanup_fold_count (l : list (string * TokenData))
    (m : gmap string TokenData) (c : nat) :
  (foldl (cleanup_visit now) (m, c) l).2
    = (c + length (filter (expired_at now) l))%nat.
Proof.
  revert m c. induction l as [| [k' d'] l IH]; intros m c.
  - simpl. lia.
  - simpl. rewrite filter_cons.
    destruct (decide (expired_at now (k', d'))) as [He | He];
      unfold expired_at in He; simpl in He;
      destruct (Z.gtb_spec now (expires d')) as [Hgt | Hle]; try lia;
      rewrite IH; simpl; lia.
Qed.

Lemma cleanup_store (st : State) :
  tokenStore (cleanupExpiredTokens now st).1
    = filter (λ entry, ¬ expired_at now entry) (tokenStore st).
Proof.
  apply map_eq. intros k. unfold cleanupExpiredTokens. simpl.
  destruct (tokenStore st !! k) as [d |] eqn:Hk.
  - destruct (decide (now > expires d)) as [Hgt | Hle].
    + rewrite (cleanup_fold_expired _ _ _ k d);
        [| by apply elem_of_map_to_list | done].
      symmetry. apply map_lookup_filter_None. right.
      intros d' Hd' Hnot. apply Hnot. unfold expired_at. simpl. congruence.
    + rewrite cleanup_fold_kept.
      * rewrite Hk. symmetry. by apply map_lookup_filter_Some.
      * intros d' Hd'. apply elem_of_map_to_list in Hd'. congruence.
  - rewrite cleanup_fold_absent by done.
    symmetry. apply map_lookup_filter_None. by left.
Qed.

Lemma cleanup_count (st : State) :
  (cleanupExpiredTokens now st).2
    = size (filter (expired_at now) (tokenStore st)).
Proof.
  unfold cleanupExpiredTokens. simpl. rewrite cleanup_fold_count. simpl.
  rewrite map_filter_alt, map_size_list_to_map; [done |].
  apply NoDup_fmap_fst.
  - intros k d1 d2 [_ H1]%list_elem_of_filter [_ H2]%list_elem_of_filter.
    apply elem_of_map_to_list in H1, H2. congruence.
  - apply NoDup_filter, NoDup_map_to_list.
Qed.

Lemma cleanup_sizes (st : State) :
  size (tokenStore st)
    = (size (tokenStore (cleanupExpiredTokens now st).1)
       + (cleanupExpiredTokens now st).2)%nat.
Proof.
  rewrite cleanup_store, cleanup_count.
  rewrite <- (map_filter_union_complement (expired_at now) (tokenStore st))
    at 1.
  rewrite map_size_disj_union by apply map_disjoint_filter_complement.
  lia.
Qed.
End cleanup.

(** C6: one run of the cleanup at clock reading [now] deletes from the
    token store exactly the records with [now > expires]: such a record is
    gone afterwards, every other record is still there unchanged, and no
    key appears that was not there. The blacklist is untouched, and the
    counter [cleaned] equals the number of records deleted by the run. *)
Theorem cleanup_exact (now : Z) (st : State) :
  (∀ t r, tokenStore st !! t = Some r → now > expires r →
     tokenStore (cleanupExpiredTokens now st).1 !! t = None) ∧
  (∀ t r, tokenStore st !! t = Some r → ¬ now > expires r →
     tokenStore (cleanupExpiredTokens now st).1 !! t = Some r) ∧
  (∀ t, tokenStore st !! t = None →
     tokenStore (cleanupExpiredTokens now st).1 !! t = None) ∧
  blacklistedTokens (cleanupExpiredTokens now st).1 = blacklistedTokens st ∧
  (cleanupExpiredTokens now st).2
    = size (filter (expired_at now) (tokenStore st)) ∧
  size (tokenStore st)
    = (size (tokenStore (cleanupExpiredTokens now st).1)
       + (cleanupExpiredTokens now st).2)%nat.
Proof.
  split; [| split; [| split; [| split; [| split]]]].
  - intros t r Hr Hgt. rewrite cleanup_store.
    apply map_lookup_filter_None. right. intros r' Hr' Hnot.
    apply Hnot. unfold expired_at. simpl. congruence.
  - intros t r Hr Hle. rewrite cleanup_store.
    by apply map_lookup_filter_Some.
  - intros t Ht. rewrite cleanup_store.
    apply map_lookup_filter_None. by left.
  - reflexivity.
  - apply cleanup_count.
  - apply cleanup_sizes.
Qed.

Lemma cleanup_exact_witness :
  tokenStore (cleanupExpiredTokens 50 sample_state).1 !! "old" = None ∧
  tokenStore (cleanupExpiredTokens 50 sample_state).1 !! "live"
    = Some (session 100) ∧
  tokenStore (cleanupExpiredTokens 50 sample_state).1 !! "nobody" = None.
Proof.
  split; [| split].
  - apply (proj1 (cleanup_exact 50 sample_state) "old" (session 1)).
    + vm_compute. reflexivity.
    + reflexivity.
  - apply (proj1 (proj2 (cleanup_exact 50 sample_state)) "live" (session 100)).
    + vm_compute. reflexivity.
    + discriminate.
  - apply (proj1 (proj2 (proj2 (cleanup_exact 50 sample_state))) "nobody").
    vm_compute. reflexivity.
Defined.

(** The sample sweep reclaims the two expired sessions and reports it. *)
Example cleanup_sample_count :
  (cleanupExpiredTokens 50 sample_state).2 = 2%nat ∧
  cleanup_log (cleanupExpiredTokens 50 sample_state).2 = Some 2%nat ∧
  cleanup_log (cleanupExpiredTokens 0 sample_state).2 = None.
Proof. vm_compute. done. Qed.

(** ** Falsy values *)

Lemma truthy_false_iff (v : JsValue) :
  truthy v = false ↔
  v = JsUndefined ∨ v = JsNull ∨ v = JsBool false ∨ v = JsString EmptyString ∨
  ∃ x, v = JsNumber x ∧
       PrimFloat.eqb x x && negb (PrimFloat.eqb x 0%float) = false.
Proof.
  split.
  - destruct v as [| | b | x | s | items | fields]; simpl; intros H;
      try discriminate.
    + by left.
    + right. by left.
    + destruct b; [discriminate |]. right; right. by left.
    + right; right; right; right. by exists x.
    + right; right; right; left. f_equal.
      apply String.eqb_eq. by destruct (String.eqb s EmptyString).
  - intros [-> | [-> | [-> | [-> | (x & -> & Hx)]]]]; done.
Qed.

(** ** Issuance *)

Lemma auth_token_falsy (rnd : list byte) (now : Z) (body : TokenRequest)
    (st : State) :
  truthy (body_userId body) = false →
  auth_token rnd now (Some body) st = (InvalidInput, st).
Proof. intros H. unfold auth_token. by rewrite H. Qed.

(** A truthy [userId] gets its record stored, whatever happens next. *)
Lemma auth_token_state (rnd : list byte) (now : Z) (body : TokenRequest)
    (st : State) :
  truthy (body_userId body) = true →
  (auth_token rnd now (Some body) st).2 =
    mkState
      (<[generateToken rnd :=
           mkTokenData (body_userId body) (js_or (body_hwid body) JsNull)
                       (now + TOKEN_EXPIRY) now]> (tokenStore st))
      (blacklistedTokens st).
Proof. intros H. unfold auth_token. rewrite H. by destruct (_ || _). Qed.

Lemma auth_token_truthy (rnd : list byte) (now : Z) (body : TokenRequest)
    (st : State) :
  truthy (body_userId body) = true →
  stringify_throws (body_userId body) = false →
  toISOString_throws (now + TOKEN_EXPIRY) = false →
  auth_token rnd now (Some body) st =
    (TokenJson (generateToken rnd) (now + TOKEN_EXPIRY) 3600,
     mkState
       (<[generateToken rnd :=
            mkTokenData (body_userId body) (js_or (body_hwid body) JsNull)
                        (now + TOKEN_EXPIRY) now]> (tokenStore st))
       (blacklistedTokens st)).
Proof. intros H1 H2 H3. unfold auth_token. by rewrite H1, H2, H3. Qed.

(** A token in the response means the body was there, its [userId] was
    truthy, and nothing was thrown. *)
Lemma auth_token_answers_token (rnd : list byte) (now : Z)
    (reqBody : option TokenRequest) (st : State) (tok : string) (e i : Z) :
  (auth_token rnd now reqBody st).1 = TokenJson tok e i →
  ∃ body, reqBody = Some body ∧ truthy (body_userId body) = true ∧
          tok = generateToken rnd ∧ e = now + TOKEN_EXPIRY ∧ i = 3600.
Proof.
  unfold auth_token. destruct reqBody as [body |]; [| discriminate].
  destruct (truthy (body_userId body)) eqn:Ht; [| discriminate].
  destruct (_ || _); [discriminate |]. simpl.
  intros [= <- <- <-]. by exists body.
Qed.

(** Where the handler departs from "InvalidInput exactly for a missing or
    empty subjectId, success with one new record otherwise": a [userId]
    of 0 is supplied and not empty, yet rejected; a generated token that
    is already a key replaces a record instead of adding one; a [userId]
    with an own [toString] property is truthy, yet the answer is the 500
    of the [catch]; so it is at a clock reading whose expiry is no
    representable date, and when [req.body] is undefined. *)
Lemma auth_token_rejects_zero :
  (auth_token zero_bytes 1000
              (Some (mkTokenRequest (JsNumber 0%float) JsUndefined))
              empty_state
     = (InvalidInput, empty_state) ∧
   JsNumber 0%float ≠ JsUndefined ∧
   JsNumber 0%float ≠ JsNull ∧
   JsNumber 0%float ≠ JsString EmptyString) ∧
  ((auth_token zero_bytes 2000
      (Some (mkTokenRequest (JsString "user456") JsUndefined))
      (auth_token zero_bytes 1000
         (Some (mkTokenRequest (JsString "user123") JsUndefined))
         empty_state).2).1
     = TokenJson (generateToken zero_bytes) (2000 + TOKEN_EXPIRY) 3600 ∧
   size (tokenStore
           (auth_token zero_bytes 2000
              (Some (mkTokenRequest (JsString "user456") JsUndefined))
              (auth_token zero_bytes 1000
                 (Some (mkTokenRequest (JsString "user123") JsUndefined))
                 empty_state).2).2)
     = size (tokenStore
               (auth_token zero_bytes 1000
                  (Some (mkTokenRequest (JsString "user123") JsUndefined))
                  empty_state).2)) ∧
  (truthy unprintable = true ∧
   (auth_token zero_bytes 1000
               (Some (mkTokenRequest unprintable JsUndefined))
               empty_state).1 = InternalServerError) ∧
  (auth_token zero_bytes 8640000000000000
              (Some (mkTokenRequest (JsString "user123") JsUndefined))
              empty_state).1 = InternalServerError ∧
  auth_token zero_bytes 1000 None empty_state
    = (InternalServerError, empty_state).
Proof. vm_compute. repeat split; discriminate. Qed.

(** C7, amended: the token handler answers [InvalidInput] if and only if
    the request has a body whose [userId] is falsy, that is missing,
    [null], the empty string, [false], or a number that is zero or NaN.
    On that path the random bytes are not used and the store and the
    blacklist are unchanged. For every other [userId] that the log line
    can render (no own [toString] property, in it or in an array it is),
    at a clock reading whose expiry is a representable date, the request
    succeeds: the answer carries the generated token, the store gains the
    record for that token, with [expires = now + 3600000], and nothing
    else changes. That is exactly one new record when the generated token
    was not already a key, and a replaced record, the size unchanged,
    when it was. *)
Theorem auth_token_invalid_input_iff_falsy (rnd : list byte) (now : Z)
    (body : TokenRequest) (st : State) :
  (∀ reqBody,
     (auth_token rnd now reqBody st).1 = InvalidInput
     ↔ ∃ b, reqBody = Some b ∧ truthy (body_userId b) = false) ∧
  (truthy (body_userId body) = false ↔
     body_userId body = JsUndefined ∨ body_userId body = JsNull ∨
     body_userId body = JsBool false ∨
     body_userId body = JsString EmptyString ∨
     ∃ x, body_userId body = JsNumber x ∧
          PrimFloat.eqb x x && negb (PrimFloat.eqb x 0%float) = false) ∧
  (truthy (body_userId body) = false →
     ∀ rnd', auth_token rnd' now (Some body) st = (InvalidInput, st)) ∧
  (truthy (body_userId body) = true →
   stringify_throws (body_userId body) = false →
   toISOString_throws (now + 3600000) = false →
     (auth_token rnd now (Some body) st).1
       = TokenJson (generateToken rnd) (now + 3600000) 3600 ∧
     (∃ r, tokenStore (auth_token rnd now (Some body) st).2
             = <[generateToken rnd := r]> (tokenStore st) ∧
           expires r = now + 3600000 ∧ createdAt r = now ∧
           userId r = body_userId body) ∧
     blacklistedTokens (auth_token rnd now (Some body) st).2
       = blacklistedTokens st ∧
     (tokenStore st !! generateToken rnd = None →
        size (tokenStore (auth_token rnd now (Some body) st).2)
          = S (size (tokenStore st))) ∧
     (is_Some (tokenStore st !! generateToken rnd) →
        size (tokenStore (auth_token rnd now (Some body) st).2)
          = size (tokenStore st))).
Proof.
  split; [| split; [apply truthy_false_iff | split]].
  - intros reqBody. split.
    + unfold auth_token. destruct reqBody as [b |]; [| discriminate].
      destruct (truthy (body_userId b)) eqn:Ht; [| by exists b].
      by destruct (_ || _).
    + intros (b & -> & Ht). by rewrite auth_token_falsy.
  - intros Ht rnd'. by apply auth_token_falsy.
  - intros Ht Hs Hd. rewrite auth_token_truthy by done. simpl.
    split; [done |]. split; [by eexists | split; [done |]].
    split.
    + intros Hfresh. by apply map_size_insert_None.
    + intros Hthere. by apply map_size_insert_Some.
Qed.

Lemma auth_token_invalid_input_iff_falsy_witness :
  (∀ rnd',
     auth_token rnd' 1000
       (Some (mkTokenRequest (JsString EmptyString) JsUndefined))
       sample_state = (InvalidInput, sample_state)) ∧
  size (tokenStore
          (auth_token zero_bytes 1000
             (Some (mkTokenRequest (JsString "user123") JsUndefined))
             sample_state).2)
    = S (size (tokenStore sample_state)).
Proof.
  split.
  - apply (proj1 (proj2 (proj2
             (auth_token_invalid_input_iff_falsy
                zero_bytes 1000
                (mkTokenRequest (JsString EmptyString) JsUndefined)
                sample_state)))).
    reflexivity.
  - apply (proj2 (proj2 (proj2
             (auth_token_invalid_input_iff_falsy
                zero_bytes 1000
                (mkTokenRequest (JsString "user123") JsUndefined)
                sample_state)))).
    + reflexivity.
    + reflexivity.
    + reflexivity.
    + vm_compute. reflexivity.
Defined.

(** Where "check right after issue is Valid with exactly the values
    supplied" fails: an empty-string [hwid] is supplied, and the record
    that [check] returns carries [null] instead; when the generator
    returns a token that was revoked before, the handler answers with
    that token and [check] on it says [Revoked]; and for a [userId] the
    log line cannot render, the record is stored but the answer is the
    500 of the [catch], with no token in it. *)
Lemma issue_empty_hwid_stored_null :
  (let body := mkTokenRequest (JsString "user123") (JsString EmptyString) in
   let issued := auth_token zero_bytes 1000 (Some body) empty_state in
   ∃ r, check 1000 (generateToken zero_bytes) issued.2
          = (Valid r, issued.2) ∧
        userId r = body_userId body ∧
        hwid r = JsNull ∧
        hwid r ≠ body_hwid body) ∧
  (let body := mkTokenRequest (JsString "user123") JsUndefined in
   let st1 := run_all [ReqToken zero_bytes 1000 (Some body);
                       ReqRevoke 1001
                         (Some (bearer (generateToken zero_bytes)))]
                      empty_state in
   let issued := auth_token zero_bytes 1002 (Some body) st1 in
   issued.1 = TokenJson (generateToken zero_bytes) (1002 + TOKEN_EXPIRY) 3600 ∧
   check 1003 (generateToken zero_bytes) issued.2 = (Revoked, issued.2)) ∧
  (let issued := auth_token zero_bytes 1000
                   (Some (mkTokenRequest unprintable JsUndefined))
                   empty_state in
   truthy unprintable = true ∧
   issued.1 = InternalServerError ∧
   is_Some (tokenStore issued.2 !! generateToken zero_bytes)).
Proof.
  split; [| split].
  - exists (mkTokenData (JsString "user123") JsNull (1000 + TOKEN_EXPIRY)
                        1000).
    split; [vm_compute; reflexivity |]. by repeat split.
  - split; vm_compute; reflexivity.
  - split; [reflexivity |]. split; [reflexivity |].
    eexists. vm_compute. reflexivity.
Qed.

(** C4, amended: for every truthy [userId] that the log line can render,
    at a clock reading whose expiry is a representable date, the token
    handler answers with the generated token. And whenever it answers
    with a token that is not already on the blacklist, calling [check] on
    that token before its expiry, with nothing in between, returns
    [Valid] with a record whose [userId] is exactly the value supplied
    and whose [hwid] is the value supplied when that value is truthy, and
    [null] when it is missing or falsy. *)
Theorem issue_then_check (rnd : list byte) (now now' : Z)
    (reqBody : option TokenRequest) (st : State) :
  (∀ body, reqBody = Some body →
     truthy (body_userId body) = true →
     stringify_throws (body_userId body) = false →
     toISOString_throws (now + TOKEN_EXPIRY) = false →
     (auth_token rnd now reqBody st).1
       = TokenJson (generateToken rnd) (now + TOKEN_EXPIRY) 3600) ∧
  (∀ tok e i,
     (auth_token rnd now reqBody st).1 = TokenJson tok e i →
     tok ∉ blacklistedTokens st →
     now' ≤ e →
     ∃ body r,
       reqBody = Some body ∧
       check now' tok (auth_token rnd now reqBody st).2
         = (Valid r, (auth_token rnd now reqBody st).2) ∧
       userId r = body_userId body ∧
       hwid r = (if truthy (body_hwid body) then body_hwid body
                 else JsNull)).
Proof.
  split.
  - intros body -> Ht Hs Hd. by rewrite auth_token_truthy.
  - intros tok e i Hresp Hfresh Hnow.
    apply auth_token_answers_token in Hresp
      as (body & -> & Ht & -> & -> & _).
    rewrite auth_token_state by done.
    exists body,
      (mkTokenData (body_userId body) (js_or (body_hwid body) JsNull)
                   (now + TOKEN_EXPIRY) now).
    split; [done |]. split; [| done].
    apply check_live; simpl; [done | apply lookup_insert_eq | lia].
Qed.

Lemma issue_then_check_witness :
  (auth_token zero_bytes 1000
     (Some (mkTokenRequest (JsString "user123") (JsString "device-7")))
     sample_state).1
    = TokenJson (generateToken zero_bytes) (1000 + TOKEN_EXPIRY) 3600 ∧
  ∃ body r,
    Some (mkTokenRequest (JsString "user123") (JsString "device-7"))
      = Some body ∧
    check 1001 (generateToken zero_bytes)
      (auth_token zero_bytes 1000
         (Some (mkTokenRequest (JsString "user123") (JsString "device-7")))
         sample_state).2
      = (Valid r,
         (auth_token zero_bytes 1000
            (Some (mkTokenRequest (JsString "user123")
                                  (JsString "device-7")))
            sample_state).2) ∧
    userId r = body_userId body ∧
    hwid r = (if truthy (body_hwid body) then body_hwid body else JsNull).
Proof.
  split.
  - apply (proj1 (issue_then_check zero_bytes 1000 1001
             (Some (mkTokenRequest (JsString "user123")
                                   (JsString "device-7")))
             sample_state)
             (mkTokenRequest (JsString "user123") (JsString "device-7"))
             eq_refl eq_refl eq_refl eq_refl).
  - apply (proj2 (issue_then_check zero_bytes 1000 1001
             (Some (mkTokenRequest (JsString "user123")
                                   (JsString "device-7")))
             sample_state)
             (generateToken zero_bytes) (1000 + TOKEN_EXPIRY) 3600).
    + reflexivity.
    + apply (bool_decide_unpack _). vm_compute. exact I.
    + vm_compute. discriminate.
Defined.

(** ** Refresh *)

(** Where "refresh(t) returns a new token t' other than t, and check(t')
    is then Valid" fails. First, with a generator that returns a token it
    returned before and that was revoked since: the refreshed token is
    different from the old one, the handler answers with it, and [check]
    on it says [Revoked]. Second, for a record whose [userId] the log line
    cannot render: the gate accepts the token, the generated token is
    new, and the answer is the 500 of the [catch]. Third, at a clock
    reading whose expiry is no representable date: the 500 again. *)
Lemma refresh_not_as_claimed :
  (let body := mkTokenRequest (JsString "user123") JsUndefined in
   let st := run_all [ReqToken zero_bytes 1000 (Some body);
                      ReqRevoke 1001
                        (Some (bearer (generateToken zero_bytes)));
                      ReqToken [x01] 1002 (Some body)]
                     empty_state in
   let t := generateToken [x01] in
   let refreshed := auth_refresh 1003 (Some (bearer t)) zero_bytes 1004 st in
   (∃ r, check 1003 t st = (Valid r, st)) ∧
   generateToken zero_bytes ≠ t ∧
   refreshed.1
     = TokenJson (generateToken zero_bytes) (1004 + TOKEN_EXPIRY) 3600 ∧
   check 1005 (generateToken zero_bytes) refreshed.2
     = (Revoked, refreshed.2)) ∧
  (let st := run_all [ReqToken [x01] 1000
                        (Some (mkTokenRequest unprintable JsUndefined))]
                     empty_state in
   let t := generateToken [x01] in
   (∃ r, check 1001 t st = (Valid r, st)) ∧
   generateToken zero_bytes ≠ t ∧
   (generateToken zero_bytes ∉ blacklistedTokens st) ∧
   (auth_refresh 1001 (Some (bearer t)) zero_bytes 1002 st).1
     = InternalServerError) ∧
  (let st := run_all [ReqToken [x01] 8639999996400000
                        (Some (mkTokenRequest (JsString "user123")
                                              JsUndefined))]
                     empty_state in
   let t := generateToken [x01] in
   (∃ r, check 8639999999999999 t st = (Valid r, st)) ∧
   generateToken zero_bytes ≠ t ∧
   (generateToken zero_bytes ∉ blacklistedTokens st) ∧
   (auth_refresh 8639999999999999 (Some (bearer t)) zero_bytes
                 8639999999999999 st).1
     = InternalServerError).
Proof.
  split; [| split].
  - split; [eexists; vm_compute; reflexivity |].
    split; [vm_compute; discriminate |].
    split; vm_compute; reflexivity.
  - split; [eexists; vm_compute; reflexivity |].
    split; [vm_compute; discriminate |].
    split; [| vm_compute; reflexivity].
    apply (bool_decide_unpack _). vm_compute. exact I.
  - split; [eexists; vm_compute; reflexivity |].
    split; [vm_compute; discriminate |].
    split; [| vm_compute; reflexivity].
    apply (bool_decide_unpack _). vm_compute. exact I.
Qed.

(** C2, amended: for every token [t] the gate accepts (stored, not
    blacklisted, not past its expiry), a generator that returns a token
    [t'] different from [t] and not already on the blacklist, and a
    refresh that raises no internal error (the [userId] of the record can
    be rendered into the log line, and the new expiry is a representable
    date), [refresh(t)] answers with [t'], adds [t] to the blacklist,
    deletes the record of [t] and stores under [t'] a record with the
    [userId] and [hwid] of the record [t] had. From then on [check(t)] is
    [Revoked], and [check(t')], as long as [t'] has not expired, is
    [Valid] with that same [userId] and [hwid]. *)
Theorem refresh_rotates (g now : Z) (t : string) (rnd : list byte)
    (st : State) (r : TokenData) :
  t ∉ blacklistedTokens st →
  tokenStore st !! t = Some r →
  ¬ g > expires r →
  generateToken rnd ≠ t →
  generateToken rnd ∉ blacklistedTokens st →
  stringify_throws (userId r) = false →
  toISOString_throws (now + TOKEN_EXPIRY) = false →
  (auth_refresh g (Some (bearer t)) rnd now st).1
    = TokenJson (generateToken rnd) (now + TOKEN_EXPIRY) 3600 ∧
  blacklistedTokens (auth_refresh g (Some (bearer t)) rnd now st).2
    = {[t]} ∪ blacklistedTokens st ∧
  tokenStore (auth_refresh g (Some (bearer t)) rnd now st).2 !! t = None ∧
  tokenStore (auth_refresh g (Some (bearer t)) rnd now st).2
    = <[generateToken rnd :=
          mkTokenData (userId r) (hwid r) (now + TOKEN_EXPIRY) now]>
        (delete t (tokenStore st)) ∧
  (∀ n, check n t (auth_refresh g (Some (bearer t)) rnd now st).2
          = (Revoked, (auth_refresh g (Some (bearer t)) rnd now st).2)) ∧
  (∀ n, n ≤ now + TOKEN_EXPIRY →
     ∃ r', check n (generateToken rnd)
                 (auth_refresh g (Some (bearer t)) rnd now st).2
             = (Valid r', (auth_refresh g (Some (bearer t)) rnd now st).2) ∧
           userId r' = userId r ∧ hwid r' = hwid r).
Proof.
  intros Hbl Hr Hlive Hne Hfresh Hs Hd.
  rewrite auth_refresh_check, (check_live g t st r) by done.
  unfold Valid. cbv beta iota.
  unfold refresh_handler. rewrite Hs, Hd, substring_from_bearer. simpl.
  split; [done |]. split; [done |].
  split; [by rewrite lookup_insert_ne, lookup_delete_eq |].
  split; [done |]. split.
  - intros n. apply check_blacklisted. simpl. set_solver.
  - intros n Hn.
    exists (mkTokenData (userId r) (hwid r) (now + TOKEN_EXPIRY) now).
    split; [| done].
    apply check_live; simpl; [| apply lookup_insert_eq | lia].
    by intros [?%elem_of_singleton | ?]%elem_of_union.
Qed.

Lemma refresh_rotates_witness :
  (auth_refresh 50 (Some (bearer "live")) zero_bytes 51 sample_state).1
    = TokenJson (generateToken zero_bytes) (51 + TOKEN_EXPIRY) 3600 ∧
  check 52 "live"
        (auth_refresh 50 (Some (bearer "live")) zero_bytes 51 sample_state).2
    = (Revoked,
       (auth_refresh 50 (Some (bearer "live")) zero_bytes 51 sample_state).2).
Proof.
  destruct (refresh_rotates 50 51 "live" zero_bytes sample_state (session 100))
    as (Hresp & _ & _ & _ & Hold & _).
  - apply (bool_decide_unpack _). vm_compute. exact I.
  - vm_compute. reflexivity.
  - discriminate.
  - vm_compute. discriminate.
  - apply (bool_decide_unpack _). vm_compute. exact I.
  - reflexivity.
  - reflexivity.
  - split; [exact Hresp | exact (Hold 52)].
Defined.

(** The token generated from 32 zero bytes. *)
Example generateToken_zero_bytes :
  generateToken zero_bytes
    = "0000000000000000000000000000000000000000000000000000000000000000".
Proof. reflexivity. Qed.

Example generateToken_sample :
  generateToken [x00; x0f; xa5; xff] = "000fa5ff".
Proof. reflexivity. Qed.

(** * Further properties of the server *)

(** ** The shape of generated tokens *)

(** Each byte contributes two hex digits, from which it can be read
    back. *)
Lemma generateToken_cons (b : byte) (l : list byte) :
  ∃ c1 c2, generateToken (b :: l) = String c1 (String c2 (generateToken l)) ∧
           is_hex_digit c1 = true ∧ is_hex_digit c2 = true ∧
           Byte.of_N (16 * hex_value c1 + hex_value c2) = Some b.
Proof.
  exists (hex_digit (Byte.to_N b / 16)), (hex_digit (Byte.to_N b mod 16)).
  split; [reflexivity |]. destruct b; vm_compute; done.
Qed.

Lemma generateToken_length (rnd : list byte) :
  String.length (generateToken rnd) = (2 * length rnd)%nat.
Proof.
  induction rnd as [| b l IH]; [done |].
  destruct (generateToken_cons b l) as (c1 & c2 & -> & _).
  cbn [String.length length]. rewrite IH. lia.
Qed.

Lemma generateToken_hex_digits (rnd : list byte) :
  forallb is_hex_digit (list_ascii_of_string (generateToken rnd)) = true.
Proof.
  induction rnd as [| b l IH]; [done |].
  destruct (generateToken_cons b l) as (c1 & c2 & -> & H1 & H2 & _).
  cbn [list_ascii_of_string forallb]. by rewrite H1, H2, IH.
Qed.

(** X1: the token made from [n] random bytes has [2 n] characters, all of
    them lowercase hex digits; made from 32 bytes it is a 64-digit
    token. *)
Theorem generateToken_format (rnd : list byte) :
  String.length (generateToken rnd) = (2 * length rnd)%nat ∧
  forallb is_hex_digit (list_ascii_of_string (generateToken rnd)) = true ∧
  (length rnd = 32%nat → is_token (generateToken rnd) = true).
Proof.
  split; [apply generateToken_length |].
  split; [apply generateToken_hex_digits |].
  intros H32. unfold is_token.
  rewrite generateToken_hex_digits, generateToken_length, H32. reflexivity.
Qed.

Lemma generateToken_format_witness :
  is_token (generateToken zero_bytes) = true.
Proof.
  apply (proj2 (proj2 (generateToken_format zero_bytes))). reflexivity.
Defined.

Lemma decode_generateToken (rnd : list byte) :
  decode_hex (generateToken rnd) = Some rnd.
Proof.
  induction rnd as [| b l IH]; [done |].
  destruct (generateToken_cons b l) as (c1 & c2 & -> & _ & _ & Hb).
  cbn [decode_hex]. by rewrite Hb, IH.
Qed.

(** X2: the hex rendering loses nothing: two different draws of random
    bytes never give the same token. *)
Theorem generateToken_injective (rnd1 rnd2 : list byte) :
  rnd1 ≠ rnd2 → generateToken rnd1 ≠ generateToken rnd2.
Proof.
  intros Hne Heq. apply Hne.
  pose proof (decode_generateToken rnd1) as H1.
  rewrite Heq, decode_generateToken in H1. congruence.
Qed.

Lemma generateToken_injective_witness :
  generateToken [x00; x01] ≠ generateToken [x00; x10].
Proof.
  apply (generateToken_injective [x00; x01] [x00; x10]).
  discriminate.
Defined.

(** ** What lets a request through [verifyToken] *)

Lemma startsWith_split (p a : string) :
  startsWith p a = true → a = p +:+ substring_from (String.length p) a.
Proof.
  unfold startsWith. revert a. induction p as [| c p IH]; intros a; [done |].
  destruct a as [| c' a]; simpl; [discriminate |].
  destruct (ascii_dec c c') as [<- |]; [| discriminate].
  intros H.
  change (String c a = String c (p +:+ substring_from (String.length p) a)).
  f_equal. by apply IH.
Qed.

Lemma header_is_bearer (a : string) :
  startsWith "Bearer " a = true → a = bearer (substring_from 7 a).
Proof. intros H. by apply (startsWith_split "Bearer ") in H. Qed.

(** The header that got a request through, spelled out. *)
Lemma verifyToken_next_bearer (now : Z) (h : option string) (st st' : State)
    (d : TokenData) :
  verifyToken now h st = (Next d, st') →
  st' = st ∧
  ∃ t, h = Some (bearer t) ∧ (t ∉ blacklistedTokens st) ∧
       tokenStore st !! t = Some d ∧ now ≤ expires d.
Proof.
  unfold verifyToken. destruct h as [a |]; [| discriminate].
  destruct (String.eqb a EmptyString); [discriminate |].
  destruct (startsWith "Bearer " a) eqn:Hp; [| discriminate]. simpl.
  case_bool_decide as Hbl; [discriminate |].
  destruct (tokenStore st !! _) as [r |] eqn:Hr; [| discriminate].
  destruct (Z.gtb_spec now (expires r)); [discriminate |].
  intros [= <- <-]. split; [done |].
  exists (substring_from 7 a).
  split; [by rewrite <- header_is_bearer |]. repeat split; [done.. | lia].
Qed.

(** X3: [verifyToken] calls [next()] exactly when the [Authorization]
    header is ["Bearer "] followed by a token that is not blacklisted, has
    a record, and whose record is not past its expiry; the record attached
    to the request is the stored one and the state is left as it was. *)
Theorem verifyToken_next_iff (now : Z) (h : option string) (st st' : State)
    (d : TokenData) :
  verifyToken now h st = (Next d, st') ↔
  st' = st ∧
  ∃ t, h = Some (bearer t) ∧ (t ∉ blacklistedTokens st) ∧
       tokenStore st !! t = Some d ∧ now ≤ expires d.
Proof.
  split; [apply verifyToken_next_bearer |].
  intros (-> & t & -> & Hbl & Hr & Hle).
  apply (check_live now t st d); [done | done | lia].
Qed.

(** X4: [verifyToken] answers 401 "Bearer token required" exactly when
    the header is missing or does not begin with ["Bearer "] (the test is
    case sensitive); it then leaves the state as it was. *)
Theorem verifyToken_bearer_required (now : Z) (h : option string)
    (st : State) :
  ((verifyToken now h st).1 = Respond (ErrorJson 401 "Bearer token required")
     ↔ ∀ t, h ≠ Some (bearer t)) ∧
  ((∀ t, h ≠ Some (bearer t)) → (verifyToken now h st).2 = st).
Proof.
  assert (Hno : (∀ t, h ≠ Some (bearer t)) →
                verifyToken now h st
                  = (Respond (ErrorJson 401 "Bearer token required"), st)).
  { intros Hh. unfold verifyToken. destruct h as [a |]; [| done].
    destruct (String.eqb a EmptyString); [done |].
    destruct (startsWith "Bearer " a) eqn:Hp; [| done].
    destruct (Hh (substring_from 7 a)). f_equal. by apply header_is_bearer. }
  split; [split |].
  - intros Hreq t ->. fold (check now t st) in Hreq.
    rewrite check_unfold in Hreq.
    unfold Revoked, Unknown, Expired, Valid in Hreq.
    case_bool_decide; [discriminate |].
    destruct (tokenStore st !! t) as [r |]; [| discriminate].
    destruct (now >? expires r); discriminate.
  - intros Hh. by rewrite Hno.
  - intros Hh. by rewrite Hno.
Qed.

Lemma verifyToken_bearer_required_witness :
  (verifyToken 50 (Some "bearer live") sample_state).2 = sample_state.
Proof.
  apply (proj2 (verifyToken_bearer_required 50 (Some "bearer live")
                  sample_state)).
  intros t. vm_compute. discriminate.
Defined.

(** ** The API key *)

Lemma verifyApiKey_next (envApiKey xApiKey : option string) :
  verifyApiKey envApiKey xApiKey = None ↔
  ∃ k, k ≠ EmptyString ∧ xApiKey = Some k ∧ envApiKey = Some k.
Proof.
  unfold verifyApiKey. split.
  - destruct xApiKey as [k |]; [| discriminate].
    destruct (String.eqb_spec k EmptyString) as [| Hk]; [discriminate |].
    case_bool_decide as He; [| discriminate].
    intros _. exists k. by rewrite <- He.
  - intros (k & Hk & -> & ->).
    destruct (String.eqb_spec k EmptyString); [done |].
    by rewrite bool_decide_eq_true_2.
Qed.

Lemma verifyApiKey_401 (envApiKey xApiKey : option string) (r : Response) :
  verifyApiKey envApiKey xApiKey = Some r → ∃ msg, r = ErrorJson 401 msg.
Proof.
  unfold verifyApiKey. destruct xApiKey as [k |]; [| intros [= <-]; eauto].
  destruct (String.eqb k EmptyString); [intros [= <-]; eauto |].
  destruct (negb _); [intros [= <-]; eauto | discriminate].
Qed.

(** X5: [verifyApiKey] lets a request through exactly when the
    [x-api-key] header is a non-empty string equal to [API_KEY]. When
    [API_KEY] is unset or empty, no request gets through, whatever key it
    carries. *)
Theorem verifyApiKey_passes_iff (envApiKey xApiKey : option string) :
  (verifyApiKey envApiKey xApiKey = None ↔
     ∃ k, k ≠ EmptyString ∧ xApiKey = Some k ∧ envApiKey = Some k) ∧
  (envApiKey = None ∨ envApiKey = Some EmptyString →
     ∃ msg, verifyApiKey envApiKey xApiKey = Some (ErrorJson 401 msg)).
Proof.
  split; [apply verifyApiKey_next |].
  intros Henv.
  destruct (verifyApiKey envApiKey xApiKey) as [r |] eqn:Hv.
  - destruct (verifyApiKey_401 _ _ _ Hv) as [msg ->]. by exists msg.
  - apply verifyApiKey_next in Hv as (k & Hk & _ & ->).
    destruct Henv as [[=] | [= Hempty]]. by destruct Hk.
Qed.

Lemma verifyApiKey_passes_iff_witness :
  ∃ msg, verifyApiKey None (Some "secret") = Some (ErrorJson 401 msg).
Proof.
  apply (proj2 (verifyApiKey_passes_iff None (Some "secret"))).
  by left.
Defined.

(** X6: on the [/auth/token] route a request whose API key is missing,
    empty or different from [API_KEY] is answered with a 401 and leaves
    the store and the blacklist as they were, whatever its body; the state
    changes only for a request that carries the right key. *)
Theorem post_auth_token_needs_key (envApiKey xApiKey : option string)
    (limited : option Response) (rnd : list byte) (now : Z)
    (body : option TokenRequest) (st : State) :
  (¬ (∃ k, k ≠ EmptyString ∧ xApiKey = Some k ∧ envApiKey = Some k) →
     ∃ msg, post_auth_token envApiKey xApiKey limited rnd now body st
              = (ErrorJson 401 msg, st)) ∧
  ((post_auth_token envApiKey xApiKey limited rnd now body st).2 ≠ st →
     ∃ k, k ≠ EmptyString ∧ xApiKey = Some k ∧ envApiKey = Some k).
Proof.
  unfold post_auth_token.
  destruct (verifyApiKey envApiKey xApiKey) as [r |] eqn:Hv.
  - destruct (verifyApiKey_401 _ _ _ Hv) as [msg ->].
    split; [intros _; by exists msg | done].
  - apply verifyApiKey_next in Hv. split; [done | by intros _].
Qed.

Lemma post_auth_token_needs_key_witness :
  ∃ msg, post_auth_token (Some "secret") (Some "guess") None zero_bytes 1000
           (Some (mkTokenRequest (JsString "user123") JsUndefined))
           sample_state
         = (ErrorJson 401 msg, sample_state).
Proof.
  apply (proj1 (post_auth_token_needs_key (Some "secret") (Some "guess") None
                  zero_bytes 1000
                  (Some (mkTokenRequest (JsString "user123") JsUndefined))
                  sample_state)).
  intros (k & _ & [= <-] & [=]).
Defined.

(** ** Where records and blacklist entries come from *)

Lemma verifyToken_store_some (now : Z) (h : option string) (st : State)
    (k : string) (d : TokenData) :
  tokenStore (verifyToken now h st).2 !! k = Some d →
  tokenStore st !! k = Some d.
Proof.
  destruct (verifyToken now h st) as [[r | d'] st'] eqn:Hv; simpl.
  - apply verifyToken_respond in Hv as [-> | (a & _ & ->)]; [done |].
    simpl. rewrite lookup_delete_Some. by intros [_ ?].
  - by apply verifyToken_next in Hv as [-> _].
Qed.

Lemma verifyToken_store_none (now : Z) (h : option string) (st : State)
    (k : string) :
  tokenStore st !! k = None →
  tokenStore (verifyToken now h st).2 !! k = None.
Proof.
  intros Hk.
  destruct (tokenStore (verifyToken now h st).2 !! k) as [d |] eqn:Hd;
    [| done].
  apply verifyToken_store_some in Hd. congruence.
Qed.

(** A record found after an operation was there before, or is the one the
    operation wrote under the token it generated. *)
Lemma run_store_origin (op : Op) (st : State) (k : string) (d : TokenData) :
  tokenStore (run op st) !! k = Some d →
  tokenStore st !! k = Some d ∨
  match op with
  | ReqToken rnd now reqBody =>
      k = generateToken rnd ∧
      ∃ body, reqBody = Some body ∧ truthy (body_userId body) = true ∧
              d = mkTokenData (body_userId body)
                              (js_or (body_hwid body) JsNull)
                              (now + TOKEN_EXPIRY) now
  | ReqRefresh g h rnd now =>
      k = generateToken rnd ∧
      ∃ t d0, h = Some (bearer t) ∧ tokenStore st !! t = Some d0 ∧
              d = mkTokenData (userId d0) (hwid d0) (now + TOKEN_EXPIRY) now
  | _ => False
  end.
Proof.
  destruct op as [rnd now body | g h rnd now | g h | g h | now]; cbn [run].
  - destruct body as [body |]; [| by left].
    destruct (truthy (body_userId body)) eqn:Ht;
      [| rewrite auth_token_falsy by done; by left].
    rewrite auth_token_state by done. simpl.
    rewrite lookup_insert_Some. intros [[<- <-] | [_ ?]]; [right | by left].
    split; [done |]. by exists body.
  - unfold auth_refresh.
    destruct (verifyToken g h st) as [[r | d0] st'] eqn:Hv.
    + intros Hk. left. apply (verifyToken_store_some g h). by rewrite Hv.
    + apply verifyToken_next_bearer in Hv as (-> & t & -> & _ & Hd0 & _).
      rewrite refresh_handler_state. simpl.
      rewrite lookup_insert_Some, lookup_delete_Some.
      intros [[<- <-] | (_ & _ & ?)]; [right | by left].
      split; [done |]. by exists t, d0.
  - unfold auth_revoke.
    destruct (verifyToken g h st) as [[r | d0] st'] eqn:Hv.
    + intros Hk. left. apply (verifyToken_store_some g h). by rewrite Hv.
    + apply verifyToken_next in Hv as [-> _].
      rewrite revoke_handler_state. simpl. rewrite lookup_delete_Some.
      intros [_ ?]. by left.
  - intros Hk. left. by apply (verifyToken_store_some g h).
  - rewrite cleanup_store, map_lookup_filter_Some. intros [? _]. by left.
Qed.

(** A token found on the blacklist after an operation was on it before,
    or had a record before. *)
Lemma run_blacklist_origin (op : Op) (st : State) (k : string) :
  k ∈ blacklistedTokens (run op st) →
  k ∈ blacklistedTokens st ∨ is_Some (tokenStore st !! k).
Proof.
  destruct op as [rnd now body | g h rnd now | g h | g h | now]; cbn [run].
  - rewrite auth_token_blacklist. by left.
  - unfold auth_refresh.
    destruct (verifyToken g h st) as [[r | d0] st'] eqn:Hv.
    + pose proof (verifyToken_blacklist g h st) as Hb.
      rewrite Hv in Hb. simpl in *. rewrite Hb. by left.
    + apply verifyToken_next in Hv as (-> & a & -> & _ & Hd0 & _).
      rewrite refresh_handler_state. simpl.
      rewrite elem_of_union, elem_of_singleton.
      intros [-> | ?]; [right; by eexists | by left].
  - unfold auth_revoke.
    destruct (verifyToken g h st) as [[r | d0] st'] eqn:Hv.
    + pose proof (verifyToken_blacklist g h st) as Hb.
      rewrite Hv in Hb. simpl in *. rewrite Hb. by left.
    + apply verifyToken_next in Hv as (-> & a & -> & _ & Hd0 & _).
      rewrite revoke_handler_state. simpl.
      rewrite elem_of_union, elem_of_singleton.
      intros [-> | ?]; [right; by eexists | by left].
  - rewrite verifyToken_blacklist. by left.
  - by left.
Qed.

(** X7: a token enters the blacklist only through a refresh or a
    revocation that found its record in the store: whatever the request,
    a token that has no record and is not blacklisted before an operation
    is not blacklisted after it. *)
Theorem unknown_token_never_blacklisted (op : Op) (st : State) (k : string) :
  k ∉ blacklistedTokens st → tokenStore st !! k = None →
  k ∉ blacklistedTokens (run op st).
Proof.
  intros Hbl Hk Hin.
  apply run_blacklist_origin in Hin as [? | [d Hd]]; [done | congruence].
Qed.

Lemma unknown_token_never_blacklisted_witness :
  "nobody" ∉ blacklistedTokens
               (run (ReqRevoke 50 (Some (bearer "nobody"))) sample_state).
Proof.
  apply (unknown_token_never_blacklisted
           (ReqRevoke 50 (Some (bearer "nobody"))) sample_state "nobody").
  - apply (bool_decide_unpack _). vm_compute. exact I.
  - vm_compute. reflexivity.
Defined.

(** ** Invariants of the reachable states *)

Lemma run_store_wf (op : Op) (st : State) :
  store_wf st → store_wf (run op st).
Proof.
  intros Hwf k d Hk. apply run_store_origin in Hk as [Hk | Hnew].
  - by apply (Hwf k).
  - destruct op as [rnd now body | g h rnd now | | |]; try done.
    + destruct Hnew as (_ & b & _ & Ht & ->). repeat split; simpl; [done |].
      unfold js_or. destruct (truthy (body_hwid b)) eqn:Hh; auto.
    + destruct Hnew as (_ & t & d0 & _ & Hd0 & ->).
      destruct (Hwf t d0 Hd0) as (Hu & Hh & _). by repeat split.
Qed.

(** X8: in every state reached from the empty one, by any history, each
    stored record has a truthy [userId], an [hwid] that is either truthy
    or [null], and an expiry exactly one hour after its creation. *)
Theorem reachable_records_wf (ops : list Op) :
  ∀ t d, tokenStore (run_all ops empty_state) !! t = Some d →
    truthy (userId d) = true ∧
    (truthy (hwid d) = true ∨ hwid d = JsNull) ∧
    expires d = createdAt d + 3600000.
Proof.
  assert (Hgen : ∀ st, store_wf st → store_wf (run_all ops st)).
  { induction ops as [| op ops IH]; intros st Hst; [done |].
    simpl. apply IH. by apply run_store_wf. }
  apply Hgen. intros t d Hd. simpl in Hd. by rewrite lookup_empty in Hd.
Qed.

Lemma reachable_records_wf_witness :
  expires (mkTokenData (JsString "user123") JsNull (1000 + TOKEN_EXPIRY) 1000)
    = 1000 + 3600000.
Proof.
  apply (reachable_records_wf
           [ReqToken zero_bytes 1000
                     (Some (mkTokenRequest (JsString "user123") JsUndefined))]
           (generateToken zero_bytes)).
  vm_compute. reflexivity.
Defined.

(** Every key of the store and every blacklisted token is a 64-digit
    token. *)
Lemma run_tokens (op : Op) (st : State) :
  draws_32 op →
  (∀ k, is_Some (tokenStore st !! k) ∨ k ∈ blacklistedTokens st →
        is_token k = true) →
  ∀ k, is_Some (tokenStore (run op st) !! k)
       ∨ k ∈ blacklistedTokens (run op st) →
       is_token k = true.
Proof.
  intros H32 Hst k [[d Hd] | Hbl].
  - apply run_store_origin in Hd as [Hd | Hnew].
    + apply Hst. left. by eexists.
    + destruct op as [rnd now body | g h rnd now | | |]; try done;
        destruct Hnew as [-> _]; by apply generateToken_format.
  - apply run_blacklist_origin in Hbl as [? | ?]; apply Hst; auto.
Qed.

(** X9: as long as each draw of random bytes returns 32 bytes, in every
    state reached from the empty one each key of the token store and each
    blacklisted token is a string of 64 lowercase hex digits: nothing a
    client sends ever becomes a key. *)
Theorem reachable_tokens_are_hex (ops : list Op) :
  Forall draws_32 ops →
  ∀ k, is_Some (tokenStore (run_all ops empty_state) !! k)
       ∨ k ∈ blacklistedTokens (run_all ops empty_state) →
       is_token k = true.
Proof.
  assert (Hgen : ∀ st,
    Forall draws_32 ops →
    (∀ k, is_Some (tokenStore st !! k) ∨ k ∈ blacklistedTokens st →
          is_token k = true) →
    ∀ k, is_Some (tokenStore (run_all ops st) !! k)
         ∨ k ∈ blacklistedTokens (run_all ops st) →
         is_token k = true).
  { induction ops as [| op ops IH]; intros st Hops Hst; [done |].
    apply Forall_cons in Hops as [Hop Hops].
    simpl. apply IH; [done |]. by apply run_tokens. }
  intros Hops. apply Hgen; [done |].
  intros k [[d Hd] | Hbl]; simpl in *.
  - by rewrite lookup_empty in Hd.
  - by apply not_elem_of_empty in Hbl.
Qed.

Lemma reachable_tokens_are_hex_witness :
  is_token (generateToken zero_bytes) = true.
Proof.
  apply (reachable_tokens_are_hex
           [ReqToken zero_bytes 1000
                     (Some (mkTokenRequest (JsString "user123") JsUndefined));
            ReqRevoke 1001 (Some (bearer (generateToken zero_bytes)));
            ReqRevoke 1002 (Some (bearer "made up"))]).
  - repeat constructor.
  - right. apply (bool_decide_unpack _). vm_compute. exact I.
Defined.

Lemma run_revoked_not_stored (op : Op) (st : State) :
  match op with
  | ReqToken rnd _ _ => generateToken rnd ∉ blacklistedTokens st
  | ReqRefresh _ h rnd _ =>
      (generateToken rnd ∉ blacklistedTokens st) ∧
      h ≠ Some (bearer (generateToken rnd))
  | _ => True
  end →
  revoked_not_stored st → revoked_not_stored (run op st).
Proof.
  intros Hfresh Hst k.
  destruct op as [rnd now body | g h rnd now | g h | g h | now]; cbn [run].
  - rewrite auth_token_blacklist. intros Hk.
    destruct body as [body |]; [| by apply Hst].
    destruct (truthy (body_userId body)) eqn:Ht;
      [| rewrite auth_token_falsy by done; by apply Hst].
    rewrite auth_token_state by done. simpl.
    rewrite lookup_insert_ne; [by apply Hst | by intros <-].
  - destruct Hfresh as [Hnew Hh]. unfold auth_refresh.
    destruct (verifyToken g h st) as [[r | d0] st'] eqn:Hv.
    + pose proof (verifyToken_blacklist g h st) as Hb.
      pose proof (verifyToken_store_none g h st k) as Hs.
      rewrite Hv in Hb, Hs. simpl in *. rewrite Hb. intros Hk.
      by apply Hs, Hst.
    + apply verifyToken_next_bearer in Hv as (-> & t & -> & _ & _ & _).
      change (default EmptyString (Some (bearer t))) with (bearer t).
      rewrite refresh_handler_state, substring_from_bearer. simpl.
      rewrite elem_of_union, elem_of_singleton. intros Hk.
      rewrite lookup_insert_ne.
      * apply lookup_delete_None. destruct Hk as [-> | Hk]; [by left |].
        right. by apply Hst.
      * intros <-. destruct Hk as [Hk | Hk]; [| done].
        apply Hh. by rewrite Hk.
  - unfold auth_revoke.
    destruct (verifyToken g h st) as [[r | d0] st'] eqn:Hv.
    + pose proof (verifyToken_blacklist g h st) as Hb.
      pose proof (verifyToken_store_none g h st k) as Hs.
      rewrite Hv in Hb, Hs. simpl in *. rewrite Hb. intros Hk.
      by apply Hs, Hst.
    + apply verifyToken_next in Hv as [-> _].
      rewrite revoke_handler_state. simpl.
      rewrite elem_of_union, elem_of_singleton. intros Hk.
      apply lookup_delete_None. destruct Hk as [-> | Hk]; [by left |].
      right. by apply Hst.
  - rewrite verifyToken_blacklist. intros Hk.
    by apply verifyToken_store_none, Hst.
  - rewrite cleanup_store. intros Hk.
    apply map_lookup_filter_None. left. by apply Hst.
Qed.

(** X10: along any history from the empty state in which each generated
    token is new when it is generated (not a revoked token, and not the
    token being refreshed), no blacklisted token ever has a record in the
    store. *)
Theorem reachable_revoked_not_stored (ops : list Op) :
  fresh_draws ops empty_state →
  ∀ k, k ∈ blacklistedTokens (run_all ops empty_state) →
       tokenStore (run_all ops empty_state) !! k = None.
Proof.
  assert (Hgen : ∀ st, fresh_draws ops st → revoked_not_stored st →
                       revoked_not_stored (run_all ops st)).
  { induction ops as [| op ops IH]; intros st Hops Hst; [done |].
    destruct Hops as [Hop Hops]. simpl. apply IH; [done |].
    by apply run_revoked_not_stored. }
  intros Hops. apply Hgen; [done |].
  intros k Hk. simpl in Hk. by apply not_elem_of_empty in Hk.
Qed.

Lemma reachable_revoked_not_stored_witness :
  tokenStore
    (run_all [ReqToken zero_bytes 1000
                       (Some (mkTokenRequest (JsString "user123") JsUndefined));
              ReqRefresh 1001 (Some (bearer (generateToken zero_bytes)))
                         [x01] 1002]
             empty_state) !! generateToken zero_bytes = None.
Proof.
  apply (reachable_revoked_not_stored
           [ReqToken zero_bytes 1000
                     (Some (mkTokenRequest (JsString "user123") JsUndefined));
            ReqRefresh 1001 (Some (bearer (generateToken zero_bytes)))
                       [x01] 1002]).
  - repeat split.
    + apply (bool_decide_unpack _). vm_compute. exact I.
    + apply (bool_decide_unpack _). vm_compute. exact I.
    + vm_compute. discriminate.
  - apply (bool_decide_unpack _). vm_compute. exact I.
Defined.

(** ** More on the cleanup sweep *)

(** X11: a second sweep, at the same clock reading or an earlier one,
    finds nothing to reclaim: it leaves the state as the first sweep left
    it and its counter stays at 0. *)
Theorem cleanup_twice (now now' : Z) (st : State) :
  now' ≤ now →
  cleanupExpiredTokens now' (cleanupExpiredTokens now st).1
    = ((cleanupExpiredTokens now st).1, O).
Proof.
  intros Hle.
  assert (Hstore :
    tokenStore (cleanupExpiredTokens now' (cleanupExpiredTokens now st).1).1
      = tokenStore (cleanupExpiredTokens now st).1).
  { rewrite (cleanup_store now'). apply map_filter_id. intros k d Hd.
    rewrite cleanup_store in Hd. apply map_lookup_filter_Some in Hd as [_ Hd].
    unfold expired_at in *. simpl in *. lia. }
  pose proof (cleanup_sizes now' (cleanupExpiredTokens now st).1) as Hsz.
  rewrite Hstore in Hsz.
  destruct (cleanupExpiredTokens now' (cleanupExpiredTokens now st).1)
    as [[store2 bl2] cleaned2] eqn:Hrun.
  assert (Hbl : bl2 = blacklistedTokens (cleanupExpiredTokens now st).1).
  { change bl2 with (blacklistedTokens (mkState store2 bl2, cleaned2).1).
    by rewrite <- Hrun. }
  simpl in Hstore, Hsz. subst store2 bl2.
  assert (cleaned2 = O) as -> by lia. reflexivity.
Qed.

Lemma cleanup_twice_witness :
  cleanupExpiredTokens 40 (cleanupExpiredTokens 50 sample_state).1
    = ((cleanupExpiredTokens 50 sample_state).1, O).
Proof. apply (cleanup_twice 50 40 sample_state). discriminate. Defined.

(** X12: a sweep does not change what the gate answers afterwards. At any
    clock reading [n] not before the sweep's, a token that [check] accepts
    is accepted with the same record after the sweep, [Revoked] stays
    [Revoked] and [Unknown] stays [Unknown]; a token that would be
    [Expired] is reported [Expired] or, once its record was swept,
    [Unknown]. And no sweep makes the gate accept a token it would not
    accept without it. *)
Theorem cleanup_keeps_verdicts (now n : Z) (t : string) (st : State) :
  now ≤ n →
  (∀ r, (check n t st).1 = Valid r →
        (check n t (cleanupExpiredTokens now st).1).1 = Valid r) ∧
  ((check n t st).1 = Revoked →
     (check n t (cleanupExpiredTokens now st).1).1 = Revoked) ∧
  ((check n t st).1 = Unknown →
     (check n t (cleanupExpiredTokens now st).1).1 = Unknown) ∧
  ((check n t st).1 = Expired →
     (check n t (cleanupExpiredTokens now st).1).1 = Expired ∨
     (check n t (cleanupExpiredTokens now st).1).1 = Unknown) ∧
  (∀ r, (check n t (cleanupExpiredTokens now st).1).1 = Valid r →
        (check n t st).1 = Valid r).
Proof.
  intros Hle. rewrite !check_unfold, cleanup_blacklist, cleanup_store.
  unfold Revoked, Unknown, Expired, Valid.
  case_bool_decide as Hbl; simpl; [by repeat split |].
  destruct (tokenStore st !! t) as [r |] eqn:Hr.
  - destruct (decide (expired_at now (t, r))) as [Hexp | Hlive].
    + rewrite (proj2 (map_lookup_filter_None _ _ _));
        [| right; intros r' Hr'; simpl; congruence].
      unfold expired_at in Hexp. simpl in Hexp.
      destruct (Z.gtb_spec n (expires r)); [| lia]. simpl.
      repeat split; try discriminate. by right.
    + rewrite (map_lookup_filter_Some_2 _ _ _ r) by done.
      destruct (n >? expires r); simpl; repeat split; try done. by left.
  - rewrite (proj2 (map_lookup_filter_None _ _ _)) by by left.
    by repeat split.
Qed.

Lemma cleanup_keeps_verdicts_witness :
  (check 60 "live" (cleanupExpiredTokens 50 sample_state).1).1
    = Valid (session 100).
Proof.
  apply (proj1 (cleanup_keeps_verdicts 50 60 "live" sample_state
                  ltac:(discriminate))).
  vm_compute. reflexivity.
Defined.

(** ** Spent tokens *)

Lemma auth_refresh_success (g : Z) (t : string) (rnd : list byte) (now : Z)
    (st st1 : State) (tok : string) (e i : Z) :
  auth_refresh g (Some (bearer t)) rnd now st = (TokenJson tok e i, st1) →
  t ∈ blacklistedTokens st1.
Proof.
  rewrite auth_refresh_check, check_unfold.
  unfold Revoked, Unknown, Expired, Valid.
  case_bool_decide; [discriminate |].
  destruct (tokenStore st !! t) as [r |]; [| discriminate].
  destruct (g >? expires r); [discriminate |].
  rewrite (surjective_pairing (refresh_handler _ _ _ _ _)).
  rewrite refresh_handler_state, substring_from_bearer.
  intros [= _ <-]. simpl. set_solver.
Qed.

(** X13: a token is good for one refresh or one revocation. Once a
    refresh with [t] has succeeded, then after any further history every
    refresh and every revocation presented with [t] is answered 401
    "Token has been revoked" and changes nothing; the same holds once a
    revocation with [t] has succeeded. *)
Theorem spent_token_rejected (t : string) (st1 : State) :
  ((∃ g rnd now st tok e i,
      auth_refresh g (Some (bearer t)) rnd now st = (TokenJson tok e i, st1))
   ∨ (∃ g st m, auth_revoke g (Some (bearer t)) st = (MessageJson m, st1))) →
  ∀ (ops : list Op) (g' now' : Z) (rnd' : list byte),
    auth_refresh g' (Some (bearer t)) rnd' now' (run_all ops st1)
      = (ErrorJson 401 "Token has been revoked", run_all ops st1) ∧
    auth_revoke g' (Some (bearer t)) (run_all ops st1)
      = (ErrorJson 401 "Token has been revoked", run_all ops st1).
Proof.
  intros Hspent ops g' now' rnd'.
  assert (Hin : t ∈ blacklistedTokens (run_all ops st1)).
  { apply (run_all_blacklist_mono ops st1).
    destruct Hspent as [(g & rnd & now & st & tok & e & i & H)
                       | (g & st & m & H)].
    - by eapply auth_refresh_success.
    - by eapply auth_revoke_success. }
  rewrite auth_refresh_check, auth_revoke_check.
  by rewrite check_blacklisted.
Qed.

Lemma spent_token_rejected_witness :
  let st1 := (auth_refresh 50 (Some (bearer "live")) zero_bytes 51
                           sample_state).2 in
  auth_refresh 52 (Some (bearer "live")) [x07] 53 (run_all [] st1)
    = (ErrorJson 401 "Token has been revoked", run_all [] st1).
Proof.
  intros st1.
  apply (spent_token_rejected "live" st1).
  left. exists 50, zero_bytes, 51, sample_state, (generateToken zero_bytes),
          (51 + TOKEN_EXPIRY), 3600.
  vm_compute. reflexivity.
Defined.

(** X14: a refresh replaces one session by one session: when the gate
    accepts [t] and the generated token is not already a key of the store,
    the store holds as many records after the refresh as before. *)
Theorem refresh_keeps_session_count (g now : Z) (t : string)
    (rnd : list byte) (st : State) (r : TokenData) :
  t ∉ blacklistedTokens st →
  tokenStore st !! t = Some r →
  ¬ g > expires r →
  tokenStore st !! generateToken rnd = None →
  size (tokenStore (auth_refresh g (Some (bearer t)) rnd now st).2)
    = size (tokenStore st).
Proof.
  intros Hbl Hr Hlive Hnew.
  rewrite auth_refresh_check, (check_live g t st r) by done.
  unfold Valid. cbv beta iota.
  rewrite refresh_handler_state, substring_from_bearer. simpl.
  rewrite map_size_insert_None.
  - rewrite map_size_delete_Some by by eexists.
    assert (size (tokenStore st) ≠ 0%nat); [| lia].
    apply map_size_non_empty_iff. intros Hempty.
    by rewrite Hempty, lookup_empty in Hr.
  - apply lookup_delete_None. by right.
Qed.

Lemma refresh_keeps_session_count_witness :
  size (tokenStore (auth_refresh 50 (Some (bearer "live")) zero_bytes 51
                                 sample_state).2)
    = size (tokenStore sample_state).
Proof.
  apply (refresh_keeps_session_count 50 51 "live" zero_bytes sample_state
           (session 100)).
  - apply (bool_decide_unpack _). vm_compute. exact I.
  - vm_compute. reflexivity.
  - discriminate.
  - vm_compute. reflexivity.
Defined.

(** ** The webhook route *)

Lemma truthy_guarded (v : JsValue) :
  truthy (if truthy v then v else JsUndefined) = truthy v.
Proof. by destruct (truthy v) eqn:Hv. Qed.

(** Reading [content] and [embeds] back from the payload. *)
Lemma webhook_payload_get (body : WebhookRequest) :
  js_get "content" (webhook_payload body)
    = (if truthy (body_content body) then body_content body
       else JsUndefined) ∧
  js_get "embeds" (webhook_payload body)
    = (if truthy (body_embeds body) then body_embeds body else JsUndefined).
Proof.
  unfold webhook_payload, set_if_truthy.
  destruct (truthy (body_content body)), (truthy (body_embeds body)),
    (truthy (body_username body)), (truthy (body_avatar_url body));
    split; reflexivity.
Qed.

Lemma webhook_payload_empty (body : WebhookRequest) :
  negb (truthy (js_get "content" (webhook_payload body)))
  && negb (truthy (js_get "embeds" (webhook_payload body)))
  = negb (truthy (body_content body)) && negb (truthy (body_embeds body)).
Proof.
  destruct (webhook_payload_get body) as [-> ->].
  by rewrite !truthy_guarded.
Qed.

(** X15: the payload forwarded to Discord holds exactly the truthy ones
    among [content], [embeds], [username] and [avatar_url], each with the
    value the client sent; falsy fields and every other field of the body
    are left out. *)
Theorem webhook_payload_fields (body : WebhookRequest) (k : string)
    (v : JsValue) :
  (k, v) ∈ webhook_payload body ↔
  truthy v = true ∧
  ((k = "content" ∧ v = body_content body) ∨
   (k = "embeds" ∧ v = body_embeds body) ∨
   (k = "username" ∧ v = body_username body) ∨
   (k = "avatar_url" ∧ v = body_avatar_url body)).
Proof.
  unfold webhook_payload, set_if_truthy.
  destruct (truthy (body_content body)) eqn:H1,
    (truthy (body_embeds body)) eqn:H2,
    (truthy (body_username body)) eqn:H3,
    (truthy (body_avatar_url body)) eqn:H4; simpl; split.
  all: try (intros Hin;
            repeat match goal with
                   | H : _ ∈ _ :: _ |- _ =>
                       apply elem_of_cons in H as [[= -> ->] | H]
                   | H : _ ∈ [] |- _ => by apply elem_of_nil in H
                   end;
            (split; [assumption | auto 10])).
  all: intros [Hv Hk]; decompose [or and] Hk; subst; try congruence;
    rewrite ?elem_of_cons; auto 10.
Qed.

(** X16: the handler calls Discord exactly when the webhook URL is
    configured (set and not empty) and the body has a truthy [content] or
    a truthy [embeds]; the call then goes to the configured URL with the
    payload built from the body. With [req.body] undefined there is no
    call. *)
Theorem webhook_posts_iff (envWebhookUrl : option string)
    (post : string -> JsObj -> bool) (d : TokenData) (body : WebhookRequest)
    (url : string) (payload : JsObj) :
  ((webhook_handler envWebhookUrl post d (Some body)).2 = Some (url, payload)
   ↔ envWebhookUrl = Some url ∧ url ≠ EmptyString ∧
     (truthy (body_content body) = true ∨ truthy (body_embeds body) = true) ∧
     payload = webhook_payload body) ∧
  (webhook_handler envWebhookUrl post d None).2 = None.
Proof.
  split; [| reflexivity].
  unfold webhook_handler.
  destruct envWebhookUrl as [u |]; [| split; [discriminate | by intros [? _]]].
  destruct (String.eqb_spec u EmptyString) as [-> | Hu].
  { split; [discriminate | by intros ([= <-] & ? & _)]. }
  rewrite webhook_payload_empty.
  assert (Hsent :
    (if post u (webhook_payload body)
     then if stringify_throws (userId d)
          then (DiscordRejected, Some (u, webhook_payload body))
          else (WebhookSent "Webhook sent successfully" (userId d),
                Some (u, webhook_payload body))
     else (DiscordRejected, Some (u, webhook_payload body))).2
    = Some (u, webhook_payload body)).
  { destruct (post u (webhook_payload body)); [| done].
    by destruct (stringify_throws (userId d)). }
  destruct (truthy (body_content body)), (truthy (body_embeds body)); simpl;
    rewrite ?Hsent.
  1-3: split; [intros [= <- <-]; auto | by intros ([= <-] & _ & _ & ->)].
  split; [intros [=] | intros (_ & _ & [? | ?] & _); discriminate].
Qed.

(** X17: what the handler answers. An undefined [req.body] gets the 500
    "Internal server error" of the outer [catch]. For a request with a
    body: without a configured URL, 500 "Webhook URL not configured",
    whatever the body holds; with one, a body with neither [content] nor
    [embeds] gets the 400; otherwise the answer is the success message
    with the [userId] of the token's record when the call to Discord
    succeeds and that [userId] can be rendered into the log line, and the
    fixed 500 "Failed to send webhook to Discord" when the call fails or
    the [userId] cannot be rendered. In no case does the answer depend on
    which URL is configured. *)
Theorem webhook_handler_responses (post : string -> JsObj -> bool)
    (d : TokenData) (body : WebhookRequest) :
  (∀ env, webhook_handler env post d None
            = (Plain (ErrorJson 500 "Internal server error"), None)) ∧
  (∀ env, env = None ∨ env = Some EmptyString →
     webhook_handler env post d (Some body)
       = (Plain (ErrorJson 500 "Webhook URL not configured"), None)) ∧
  (∀ url, url ≠ EmptyString →
     truthy (body_content body) = false →
     truthy (body_embeds body) = false →
     webhook_handler (Some url) post d (Some body)
       = (Plain (ErrorJson 400 "content or embeds is required"), None)) ∧
  (∀ url, url ≠ EmptyString →
     truthy (body_content body) = true ∨ truthy (body_embeds body) = true →
     (webhook_handler (Some url) post d (Some body)).1
       = if post url (webhook_payload body)
            && negb (stringify_throws (userId d))
         then WebhookSent "Webhook sent successfully" (userId d)
         else DiscordFailed 500 "Failed to send webhook to Discord"
                            "The webhook request was rejected by Discord") ∧
  (∀ url1 url2, url1 ≠ EmptyString → url2 ≠ EmptyString →
     post url1 (webhook_payload body) = post url2 (webhook_payload body) →
     (webhook_handler (Some url1) post d (Some body)).1
       = (webhook_handler (Some url2) post d (Some body)).1).
Proof.
  unfold webhook_handler. split; [done |]. repeat split.
  - by intros env [-> | ->].
  - intros url Hu Hc He.
    destruct (String.eqb_spec url EmptyString); [done |].
    by rewrite webhook_payload_empty, Hc, He.
  - intros url Hu Hce.
    destruct (String.eqb_spec url EmptyString); [done |].
    rewrite webhook_payload_empty.
    destruct Hce as [-> | ->]; rewrite ?andb_false_r; simpl;
      destruct (post url (webhook_payload body)); simpl; try done;
      by destruct (stringify_throws (userId d)).
  - intros url1 url2 H1 H2 Hpost.
    destruct (String.eqb_spec url1 EmptyString); [done |].
    destruct (String.eqb_spec url2 EmptyString); [done |].
    destruct (negb _ && negb _); [done |].
    rewrite Hpost. destruct (post url2 (webhook_payload body)); [| done].
    by destruct (stringify_throws (userId d)).
Qed.

Lemma webhook_handler_responses_witness :
  webhook_handler None (fun _ _ => true) (session 100)
    (Some (mkWebhookRequest JsUndefined JsUndefined JsNull JsNull))
    = (Plain (ErrorJson 500 "Webhook URL not configured"), None) ∧
  (webhook_handler (Some "https://discord.example/hook") (fun _ _ => true)
     (mkTokenData unprintable JsNull 100 0)
     (Some (mkWebhookRequest (JsString "hi") JsUndefined JsNull JsNull))).1
    = DiscordFailed 500 "Failed to send webhook to Discord"
                    "The webhook request was rejected by Discord" ∧
  (webhook_handler (Some "https://discord.example/hook") (fun _ _ => true)
     (session 100)
     (Some (mkWebhookRequest JsUndefined (JsArray []) JsNull JsNull))).1
    = WebhookSent "Webhook sent successfully" (JsString "user123").
Proof.
  split; [| split].
  - apply (proj1 (proj2 (webhook_handler_responses (fun _ _ => true)
             (session 100)
             (mkWebhookRequest JsUndefined JsUndefined JsNull JsNull)))).
    by left.
  - apply (proj1 (proj2 (proj2 (proj2 (webhook_handler_responses
             (fun _ _ => true) (mkTokenData unprintable JsNull 100 0)
             (mkWebhookRequest (JsString "hi") JsUndefined JsNull JsNull)))))
             "https://discord.example/hook").
    + discriminate.
    + by left.
  - apply (proj1 (proj2 (proj2 (proj2 (webhook_handler_responses
             (fun _ _ => true) (session 100)
             (mkWebhookRequest JsUndefined (JsArray []) JsNull JsNull)))))
             "https://discord.example/hook").
    + discriminate.
    + by right.
Defined.

(** X18: on the route, Discord is called only for a request that
    [verifyToken] and the rate limiter let through, and the route changes
    the token state exactly as [verifyToken] alone does: it never touches
    the blacklist, and the only record it can remove is the expired record
    of the presented token. *)
Theorem webhook_discord_guarded (g : Z) (h : option string)
    (limited : option Response) (env : option string)
    (post : string -> JsObj -> bool) (body : option WebhookRequest)
    (st : State) :
  (webhook_discord g h limited env post body st).2
    = (verifyToken g h st).2 ∧
  blacklistedTokens (webhook_discord g h limited env post body st).2
    = blacklistedTokens st ∧
  (∀ out, (webhook_discord g h limited env post body st).1.2 = Some out →
     limited = None ∧
     ∃ t d, h = Some (bearer t) ∧ (t ∉ blacklistedTokens st) ∧
            tokenStore st !! t = Some d ∧ g ≤ expires d).
Proof.
  assert (Hst : (webhook_discord g h limited env post body st).2
                  = (verifyToken g h st).2).
  { unfold webhook_discord.
    destruct (verifyToken g h st) as [[r | d] st']; [done |].
    by destruct limited. }
  split; [done |]. split; [by rewrite Hst, verifyToken_blacklist |].
  unfold webhook_discord.
  destruct (verifyToken g h st) as [[r | d] st'] eqn:Hv; [discriminate |].
  destruct limited as [r |]; [discriminate |].
  intros out _. split; [done |].
  apply verifyToken_next_bearer in Hv as (_ & t & -> & ? & ? & ?).
  by exists t, d.
Qed.

Lemma webhook_discord_guarded_witness :
  ∃ t d, Some (bearer "live") = Some (bearer t) ∧
         (t ∉ blacklistedTokens sample_state) ∧
         tokenStore sample_state !! t = Some d ∧ 50 ≤ expires d.
Proof.
  apply (proj2 (proj2 (webhook_discord_guarded 50 (Some (bearer "live")) None
                  (Some "https://discord.example/hook") (fun _ _ => true)
                  (Some (mkWebhookRequest (JsString "hi") JsNull JsNull
                                          JsNull))
                  sample_state))
           ("https://discord.example/hook", [("content", JsString "hi")])).
  vm_compute. reflexivity.
Defined.

(** ** The CORS middleware *)

Lemma elem_of_origins (o s : string) :
  o ∈ map trim (split_on ","%char s)
  ↔ ∃ e, e ∈ split_on ","%char s ∧ trim e = o.
Proof.
  rewrite list_elem_of_In, in_map_iff.
  split; intros (e & H1 & H2); exists e.
  - by rewrite list_elem_of_In.
  - by rewrite <- list_elem_of_In.
Qed.

(** X19: the [Access-Control-Allow-Origin] header. When [ALLOWED_ORIGINS]
    is unset, empty or ["*"], the header is ["*"] for every request.
    Otherwise [ALLOWED_ORIGINS] is read as a comma-separated list whose
    entries are trimmed, and the header is set, to the request's own
    [Origin], exactly when that origin is one of the entries; a request
    from any other origin, or without [Origin], gets no such header. The
    methods and headers lists are always sent, and the middleware passes
    every request on except [OPTIONS], which it answers itself. *)
Theorem cors_allow_origin (env origin : option string) (method : string) :
  (env = None ∨ env = Some EmptyString ∨ env = Some "*" →
     header "Access-Control-Allow-Origin" (cors env origin method).1
       = Some "*") ∧
  (∀ s o, env = Some s → s ≠ EmptyString → s ≠ "*" →
     (header "Access-Control-Allow-Origin" (cors env origin method).1 = Some o
      ↔ origin = Some o ∧ ∃ e, e ∈ split_on ","%char s ∧ trim e = o)) ∧
  header "Access-Control-Allow-Methods" (cors env origin method).1
    = Some "GET, POST, PUT, DELETE" ∧
  header "Access-Control-Allow-Headers" (cors env origin method).1
    = Some "Content-Type, Authorization, X-API-Key" ∧
  ((cors env origin method).2 = false ↔ method = "OPTIONS").
Proof.
  split; [| split; [| split; [| split]]].
  - by intros [-> | [-> | ->]].
  - intros s o -> Hs Hstar. unfold cors.
    destruct (String.eqb_spec s EmptyString); [done |].
    destruct (String.eqb_spec s "*"); [done |].
    rewrite <- elem_of_origins.
    destruct origin as [o' |]; [| by split; [| intros [? _]]].
    case_bool_decide as Hin.
    + split; [intros [= <-]; by split | by intros [[= ->] _]].
    + split; [discriminate | intros [[= ->] ?]; done].
  - unfold cors.
    destruct (String.eqb _ "*"); [done |].
    destruct origin as [o' |]; [| done]. by case_bool_decide.
  - unfold cors.
    destruct (String.eqb _ "*"); [done |].
    destruct origin as [o' |]; [| done]. by case_bool_decide.
  - simpl. destruct (String.eqb_spec method "OPTIONS"); simpl; split; done.
Qed.

Lemma cors_allow_origin_witness :
  header "Access-Control-Allow-Origin"
         (cors (Some "https://a.example, https://b.example")
               (Some "https://b.example") "GET").1
    = Some "https://b.example".
Proof.
  apply (proj1 (proj2 (cors_allow_origin
                  (Some "https://a.example, https://b.example")
                  (Some "https://b.example") "GET"))
           "https://a.example, https://b.example" "https://b.example"
           eq_refl ltac:(discriminate) ltac:(discriminate)).
  split; [reflexivity |].
  exists " https://b.example". split; [| reflexivity].
  apply (bool_decide_unpack _). vm_compute. exact I.
Defined.

(** ** The lifetime of a token *)

(** X20: a token issued at [now] (the generated token not being a revoked
    one) is accepted by the gate up to and including the instant
    [now + 3600000], and reported expired from the next millisecond on. *)
Theorem issued_token_window (rnd : list byte) (now n : Z)
    (body : TokenRequest) (st : State) :
  truthy (body_userId body) = true →
  generateToken rnd ∉ blacklistedTokens st →
  ((∃ r, (check n (generateToken rnd)
                (auth_token rnd now (Some body) st).2).1
           = Valid r) ↔ n ≤ now + 3600000) ∧
  ((check n (generateToken rnd) (auth_token rnd now (Some body) st).2).1
     = Expired
     ↔ now + 3600000 < n).
Proof.
  intros Ht Hfresh. rewrite auth_token_state, check_unfold by done. simpl.
  rewrite bool_decide_eq_false_2, lookup_insert_eq by done. simpl.
  unfold Expired, Valid, TOKEN_EXPIRY.
  destruct (Z.gtb_spec n (now + 3600000)); simpl.
  - split; split; try done; try lia. by intros [r [=]].
  - split; split; try done; try lia. intros _. by eexists.
Qed.

Lemma issued_token_window_witness :
  ∃ r, (check (1000 + 3600000) (generateToken zero_bytes)
              (auth_token zero_bytes 1000
                 (Some (mkTokenRequest (JsString "user123") JsUndefined))
                 sample_state).2).1 = Valid r.
Proof.
  apply (proj1 (issued_token_window zero_bytes 1000 (1000 + 3600000)
                  (mkTokenRequest (JsString "user123") JsUndefined)
                  sample_state eq_refl
                  ltac:(apply (bool_decide_unpack _); vm_compute; exact I))).
  reflexivity.
Defined.

(** X21: the expiry a client is told is the expiry that is stored. When
    the token route or the refresh route answers with a token, the record
    stored under that token expires at the [expiresAt] of the response,
    which is the handler's clock reading plus [expiresIn] seconds. *)
Theorem response_matches_record (tok : string) (e i : Z) :
  (∀ rnd now body st,
     (auth_token rnd now body st).1 = TokenJson tok e i →
     e = now + 1000 * i ∧
     ∃ d, tokenStore (auth_token rnd now body st).2 !! tok = Some d ∧
          expires d = e ∧ createdAt d = now) ∧
  (∀ g h rnd now st,
     (auth_refresh g h rnd now st).1 = TokenJson tok e i →
     e = now + 1000 * i ∧
     ∃ d, tokenStore (auth_refresh g h rnd now st).2 !! tok = Some d ∧
          expires d = e ∧ createdAt d = now).
Proof.
  split.
  - intros rnd now body st Hresp.
    apply auth_token_answers_token in Hresp as (b & -> & Ht & -> & -> & ->).
    rewrite auth_token_state by done. simpl. split; [done |].
    eexists. split; [apply lookup_insert_eq | done].
  - intros g h rnd now st. unfold auth_refresh.
    destruct (verifyToken g h st) as [[r | d0] st'] eqn:Hv; simpl.
    + intros ->. fold (verifyToken g h st) in Hv.
      exfalso. revert Hv. unfold verifyToken.
      destruct h as [a |]; [| discriminate].
      destruct (_ || _); [discriminate |].
      case_bool_decide; [discriminate |].
      destruct (tokenStore st !! _) as [d |]; [| discriminate].
      destruct (g >? expires d); discriminate.
    + unfold refresh_handler. destruct (_ || _); [discriminate |]. simpl.
      intros [= <- <- <-]. split; [done |].
      eexists. split; [apply lookup_insert_eq | done].
Qed.

Lemma response_matches_record_witness :
  1000 + TOKEN_EXPIRY = 1000 + 1000 * 3600.
Proof.
  apply (proj1 (response_matches_record (generateToken zero_bytes)
                  (1000 + TOKEN_EXPIRY) 3600)
           zero_bytes 1000
           (Some (mkTokenRequest (JsString "user123") JsUndefined))
           sample_state).
  reflexivity.
Defined.

(** X22: an expired token cannot be refreshed or revoked. Presented after
    its expiry (and not blacklisted), it gets 401 "Token expired" on both
    routes; its record is removed, no new token is stored, and the token
    is not put on the blacklist. *)
Theorem expired_token_not_refreshed (g : Z) (t : string) (st : State)
    (r : TokenData) :
  t ∉ blacklistedTokens st →
  tokenStore st !! t = Some r →
  g > expires r →
  (∀ rnd now,
     auth_refresh g (Some (bearer t)) rnd now st
       = (ErrorJson 401 "Token expired",
          mkState (delete t (tokenStore st)) (blacklistedTokens st))) ∧
  auth_revoke g (Some (bearer t)) st
    = (ErrorJson 401 "Token expired",
       mkState (delete t (tokenStore st)) (blacklistedTokens st)).
Proof.
  intros Hbl Hr Hexp. split; [intros rnd now |].
  - by rewrite auth_refresh_check, (check_expired g t st r).
  - by rewrite auth_revoke_check, (check_expired g t st r).
Qed.

Lemma expired_token_not_refreshed_witness :
  auth_revoke 50 (Some (bearer "old")) sample_state
    = (ErrorJson 401 "Token expired",
       mkState (delete "old" (tokenStore sample_state))
               (blacklistedTokens sample_state)).
Proof.
  apply (expired_token_not_refreshed 50 "old" sample_state (session 1)).
  - apply (bool_decide_unpack _). vm_compute. exact I.
  - vm_compute. reflexivity.
  - reflexivity.
Defined.

(** ** Only what the server issued *)

Lemma run_all_store_origin (ops : list Op) (st : State) (k : string)
    (d : TokenData) :
  tokenStore (run_all ops st) !! k = Some d →
  is_Some (tokenStore st !! k) ∨ ∃ op, op ∈ ops ∧ generated op = Some k.
Proof.
  revert st. induction ops as [| op ops IH]; intros st Hk.
  - left. by eexists.
  - simpl in Hk. apply IH in Hk as [[d' Hd'] | (op' & Hin & Hgen)].
    + apply run_store_origin in Hd' as [Hd' | Hnew].
      * left. by eexists.
      * right. exists op. split; [left |].
        destruct op as [rnd now body | g h rnd now | | |]; try done;
          destruct Hnew as [-> _]; done.
    + right. exists op'. split; [by right | done].
Qed.

(** X23: the gate accepts no token the server did not generate. In a
    state reached from the empty one, a token that [check] accepts is the
    token generated by one of the issuance or refresh requests of the
    history. *)
Theorem accepted_token_was_generated (ops : list Op) (n : Z) (t : string)
    (r : TokenData) :
  (check n t (run_all ops empty_state)).1 = Valid r →
  ∃ op, op ∈ ops ∧ generated op = Some t.
Proof.
  rewrite check_unfold. unfold Revoked, Unknown, Expired, Valid.
  case_bool_decide; [discriminate |].
  destruct (tokenStore (run_all ops empty_state) !! t) as [d |] eqn:Hd;
    [| discriminate].
  intros _. apply run_all_store_origin in Hd as [[d' Hd'] | ?]; [| done].
  simpl in Hd'. by rewrite lookup_empty in Hd'.
Qed.

Lemma accepted_token_was_generated_witness :
  ∃ op, op ∈ [ReqToken zero_bytes 1000
                       (Some (mkTokenRequest (JsString "user123") JsUndefined))]
        ∧ generated op = Some (generateToken zero_bytes).
Proof.
  apply (accepted_token_was_generated
           [ReqToken zero_bytes 1000
                     (Some (mkTokenRequest (JsString "user123") JsUndefined))]
           1001 (generateToken zero_bytes)
           (mkTokenData (JsString "user123") JsNull (1000 + TOKEN_EXPIRY)
                        1000)).
  vm_compute. reflexivity.
Defined.

Lemma run_all_identity (Q : JsValue → JsValue → Prop) (ops : list Op)
    (st : State) :
  (∀ k d, tokenStore st !! k = Some d → Q (userId d) (hwid d)) →
  (∀ rnd now body, ReqToken rnd now (Some body) ∈ ops →
     Q (body_userId body) (js_or (body_hwid body) JsNull)) →
  ∀ k d, tokenStore (run_all ops st) !! k = Some d → Q (userId d) (hwid d).
Proof.
  revert st. induction ops as [| op ops IH]; intros st Hst Hops; [done |].
  simpl. apply IH.
  - intros k d Hd. apply run_store_origin in Hd as [Hd | Hnew].
    + by apply (Hst k).
    + destruct op as [rnd now body | g h rnd now | | |]; try done.
      * destruct Hnew as (_ & b & -> & _ & ->). simpl.
        apply (Hops rnd now). by left.
      * destruct Hnew as (_ & t & d0 & _ & Hd0 & ->). simpl.
        by apply (Hst t).
  - intros rnd now body Hin. apply (Hops rnd now). by right.
Qed.

(** X24: no operation changes whose session a record is. A record found
    in the store after an operation was there, unchanged, before it; or
    it was written by a token request, under the generated token, with
    the [userId] of that request and its [hwid] ([null] where that was
    falsy); or it was written by a refresh, under the generated token,
    with exactly the [userId] and [hwid] of the record of the token that
    was presented. So in every state reached from the empty one each
    record carries the identity that some token request of the history
    supplied. *)
Theorem session_identity_from_issuance (ops : list Op) :
  (∀ (st : State) (op : Op) (k : string) (d : TokenData),
     tokenStore (run op st) !! k = Some d →
     tokenStore st !! k = Some d ∨
     (∃ rnd now body,
        op = ReqToken rnd now (Some body) ∧ k = generateToken rnd ∧
        userId d = body_userId body ∧
        hwid d = (if truthy (body_hwid body) then body_hwid body
                  else JsNull)) ∨
     (∃ g t rnd now d0,
        op = ReqRefresh g (Some (bearer t)) rnd now ∧
        k = generateToken rnd ∧
        tokenStore st !! t = Some d0 ∧
        userId d = userId d0 ∧ hwid d = hwid d0)) ∧
  (∀ (k : string) (d : TokenData),
     tokenStore (run_all ops empty_state) !! k = Some d →
     ∃ rnd now body,
       ReqToken rnd now (Some body) ∈ ops ∧
       userId d = body_userId body ∧
       hwid d = (if truthy (body_hwid body) then body_hwid body
                 else JsNull)).
Proof.
  split.
  - intros st op k d Hd. apply run_store_origin in Hd as [Hd | Hnew];
      [by left | right].
    destruct op as [rnd now body | g h rnd now | | |]; try done.
    + destruct Hnew as (-> & b & -> & _ & ->). left. by exists rnd, now, b.
    + destruct Hnew as (-> & t & d0 & -> & Hd0 & ->). right.
      by exists g, t, rnd, now, d0.
  - apply (run_all_identity
             (fun u h => ∃ rnd now body,
                ReqToken rnd now (Some body) ∈ ops ∧ u = body_userId body ∧
                h = js_or (body_hwid body) JsNull)).
    + intros k' d' Hd'. simpl in Hd'. by rewrite lookup_empty in Hd'.
    + intros rnd now body Hin. by exists rnd, now, body.
Qed.

Lemma session_identity_from_issuance_witness :
  ∃ rnd now body,
    ReqToken rnd now (Some body)
      ∈ [ReqToken zero_bytes 1000
           (Some (mkTokenRequest (JsString "user123") (JsString "pc-1")));
         ReqRefresh 1001 (Some (bearer (generateToken zero_bytes)))
                    [x01] 1002] ∧
    JsString "user123" = body_userId body ∧
    JsString "pc-1"
      = (if truthy (body_hwid body) then body_hwid body else JsNull).
Proof.
  apply (proj2 (session_identity_from_issuance
           [ReqToken zero_bytes 1000
              (Some (mkTokenRequest (JsString "user123") (JsString "pc-1")));
            ReqRefresh 1001 (Some (bearer (generateToken zero_bytes)))
                       [x01] 1002])
           (generateToken [x01])
           (mkTokenData (JsString "user123") (JsString "pc-1")
                        (1002 + TOKEN_EXPIRY) 1002)).
  vm_compute. reflexivity.
Defined.
